(** * PyWebIO session package: registry, context resolution and dispatch

    A shallow embedding of [pywebio/session/__init__.py].  The module state
    ([_active_session_cls]), the ambient execution context and the message
    traffic of the calling execution unit are gathered in one [World] record
    that is threaded through every function; Python exceptions are the
    [Raise] outcome of a small state-and-error monad.  Loops that Python
    writes as [while 1] take their iteration bound from a fuel argument. *)

From Stdlib Require Import List String Bool Arith Lia ZArith.
Import ListNotations.
Local Open Scope string_scope.
Local Open Scope list_scope.

Set Implicit Arguments.
Set Warnings "-register-all".

(** ** Classes, exceptions and data *)

(** The three session implementations imported at the top of the module. *)
Inductive SessionCls : Type :=
| CoroutineBasedSession
| ThreadBasedSession
| ScriptModeSession.

Definition cls_eqb (a b : SessionCls) : bool :=
  match a, b with
  | CoroutineBasedSession, CoroutineBasedSession => true
  | ThreadBasedSession, ThreadBasedSession => true
  | ScriptModeSession, ScriptModeSession => true
  | _, _ => false
  end.

(** [cls.__name__] *)
Definition cls_name (c : SessionCls) : string :=
  match c with
  | CoroutineBasedSession => "CoroutineBasedSession"
  | ThreadBasedSession => "ThreadBasedSession"
  | ScriptModeSession => "ScriptModeSession"
  end.

(** Modelled from the spec: the class declarations of the [threadbased] and
    [coroutinebased] modules.  The glossary knows two execution-model kinds,
    thread-backed and coroutine-backed, and section 4.1 calls script mode the
    degenerate kind with one ambient session; [ScriptModeSession] is imported
    from [.threadbased] and is the thread-backed class specialised to that
    session, so it is a subclass of [ThreadBasedSession].  Python's
    [issubclass] is reflexive. *)
Definition issubclass (c parent : SessionCls) : bool :=
  match c, parent with
  | ScriptModeSession, ThreadBasedSession => true
  | _, _ => cls_eqb c parent
  end.

(** The exceptions the module raises or catches.  [SessionNotFoundException]
    and [SessionClosedException] are the session conditions, both caught by
    [except SessionException]. *)
Inductive exn : Type :=
| SessionException
| SessionNotFoundException
| SessionClosedException
| RuntimeError (msg : string)
| AssertionError (msg : string)
| TypeError (msg : string)
| OtherError (msg : string).

(** [isinstance(e, SessionException)] *)
Definition is_SessionException (e : exn) : bool :=
  match e with
  | SessionException | SessionNotFoundException | SessionClosedException => true
  | _ => false
  end.

(** [isinstance(e, SessionNotFoundException)] *)
Definition is_SessionNotFoundException (e : exn) : bool :=
  match e with
  | SessionNotFoundException => true
  | _ => false
  end.

(** JSON-serialisable values: message payloads and keyword arguments. *)
Inductive data : Type :=
| DNone
| DBool (b : bool)
| DInt (z : Z)
| DStr (s : string)
| DList (l : list data)
| DDict (kvs : list (string * data)).

(** An inbound client event: its kind and its payload. *)
Record client_event : Type := { ev_event : string; ev_data : data }.

(** An outbound message, as [send_msg(command, spec=...)] builds it. *)
Record message : Type := { command : string; spec : data }.

(** What the [i]-th call of a session's suspension primitive meets: an
    event of the pending queue, or the failure the call is released with. *)
Inductive delivery : Type :=
| Event (ev : client_event)
| Fail (e : exn).

(** ** The world of the calling execution unit *)

Record World : Type := {
  (** the module-level list of session implementations in use *)
  _active_session_cls : list SessionCls;
  (** how often [_start_script_mode_server] ran *)
  script_mode_servers : nat;
  (** the ambient context: the session each implementation finds for the
      calling execution unit, if any *)
  current_session_of : SessionCls -> option nat;
  (** every [cls.get_current_session()] call made so far, oldest first *)
  probed : list SessionCls;
  (** the messages sent so far, oldest first *)
  outbound : list message;
  (** for each message sent, how many deliveries the unit had taken when it
      sent it, in the order of [outbound] *)
  sent_at : list nat;
  (** the inbound traffic of the current session, by primitive call *)
  inbound : nat -> delivery;
  (** how many calls of the suspension primitive have completed *)
  received : nat
}.

Definition set_active (l : list SessionCls) (w : World) : World :=
  {| _active_session_cls := l;
     script_mode_servers := script_mode_servers w;
     current_session_of := current_session_of w;
     probed := probed w;
     outbound := outbound w;
     sent_at := sent_at w;
     inbound := inbound w;
     received := received w |}.

Definition set_script_mode_servers (n : nat) (w : World) : World :=
  {| _active_session_cls := _active_session_cls w;
     script_mode_servers := n;
     current_session_of := current_session_of w;
     probed := probed w;
     outbound := outbound w;
     sent_at := sent_at w;
     inbound := inbound w;
     received := received w |}.

Definition set_probed (l : list SessionCls) (w : World) : World :=
  {| _active_session_cls := _active_session_cls w;
     script_mode_servers := script_mode_servers w;
     current_session_of := current_session_of w;
     probed := l;
     outbound := outbound w;
     sent_at := sent_at w;
     inbound := inbound w;
     received := received w |}.

Definition set_outbound (l : list message) (w : World) : World :=
  {| _active_session_cls := _active_session_cls w;
     script_mode_servers := script_mode_servers w;
     current_session_of := current_session_of w;
     probed := probed w;
     outbound := l;
     sent_at := sent_at w;
     inbound := inbound w;
     received := received w |}.

Definition set_sent_at (l : list nat) (w : World) : World :=
  {| _active_session_cls := _active_session_cls w;
     script_mode_servers := script_mode_servers w;
     current_session_of := current_session_of w;
     probed := probed w;
     outbound := outbound w;
     sent_at := l;
     inbound := inbound w;
     received := received w |}.

Definition set_received (n : nat) (w : World) : World :=
  {| _active_session_cls := _active_session_cls w;
     script_mode_servers := script_mode_servers w;
     current_session_of := current_session_of w;
     probed := probed w;
     outbound := outbound w;
     sent_at := sent_at w;
     inbound := inbound w;
     received := n |}.

(** ** The monad of module functions *)

Inductive outcome (A : Type) : Type :=
| Ok (a : A)
| Raise (e : exn)
| OutOfFuel.
Arguments Ok {A} a.
Arguments Raise {A} e.
Arguments OutOfFuel {A}.

(** A module function: given the loop bound and the world, the new world
    and what the call came to. *)
Definition M (A : Type) : Type := nat -> World -> World * outcome A.

Definition ret {A} (a : A) : M A := fun _ w => (w, Ok a).

Definition raise {A} (e : exn) : M A := fun _ w => (w, Raise e).

Definition bind {A B} (m : M A) (f : A -> M B) : M B :=
  fun fuel w =>
    match m fuel w with
    | (w', Ok a) => f a fuel w'
    | (w', Raise e) => (w', Raise e)
    | (w', OutOfFuel) => (w', OutOfFuel)
    end.

(** [try: m except <handler>] *)
Definition try_except {A} (m : M A) (handler : exn -> M A) : M A :=
  fun fuel w =>
    match m fuel w with
    | (w', Raise e) => handler e fuel w'
    | r => r
    end.

Definition modify (f : World -> World) : M unit := fun _ w => (f w, Ok tt).

Declare Scope py_scope.
Delimit Scope py_scope with py.
Notation "x <- m ;; k" := (bind m (fun x => k))
  (at level 61, m at next level, right associativity) : py_scope.
Notation "m ;;; k" := (bind m (fun _ => k))
  (at level 61, right associativity) : py_scope.
Local Open Scope py_scope.

(** [m] returns [a], taking the world from [w] to [w'], whenever it is
    given enough fuel. *)
Definition returns {A} (m : M A) (w w' : World) (a : A) : Prop :=
  exists n, forall k, n <= k -> m k w = (w', Ok a).

(** [m] raises [e], taking the world from [w] to [w'], whenever it is
    given enough fuel. *)
Definition raises {A} (m : M A) (w w' : World) (e : exn) : Prop :=
  exists n, forall k, n <= k -> m k w = (w', Raise e).

Definition gets {A} (f : World -> A) : M A := fun _ w => (w, Ok (f w)).

(** ** Collaborators outside the module *)

(** The shape tests of [..utils], applied to a task function. *)
Class TaskShape (target : Type) : Type := {
  iscoroutinefunction : target -> bool;
  isgeneratorfunction : target -> bool
}.

(** A session object: the implementation it is an instance of and its id. *)
Record Session : Type := { session_cls : SessionCls; session_id : nat }.

(** Modelled from the spec: the classmethod [cls.get_current_session()] of
    the absent session classes, the per-kind capability
    [recognizes(unit) -> Session?] of section 9: it answers with the session
    owning the calling execution unit or fails with the session-not-found
    condition.  Every call is recorded in [probed]. *)
Definition cls_get_current_session (cls : SessionCls) : M Session :=
  fun _ w =>
    let w' := set_probed (probed w ++ [cls]) w in
    match current_session_of w cls with
    | Some sid => (w', Ok {| session_cls := cls; session_id := sid |})
    | None => (w', Raise SessionNotFoundException)
    end.

(** Modelled from the spec: [start_server_in_current_thread_session] of the
    absent [platform.tornado], which bootstraps the single ambient session
    transport of script mode (section 4.1, policy 1).  Only the fact that
    the bootstrap ran is kept. *)
Definition start_server_in_current_thread_session : M unit :=
  modify (fun w => set_script_mode_servers (S (script_mode_servers w)) w).

(** ** Registry and context resolver *)

(** [cls in _active_session_cls] *)
Definition cls_in (cls : SessionCls) (l : list SessionCls) : bool :=
  existsb (cls_eqb cls) l.

Definition register_session_implement_for_target
    {target : Type} `{TaskShape target} (target_func : target) : M SessionCls :=
  let cls :=
    if iscoroutinefunction target_func || isgeneratorfunction target_func
    then CoroutineBasedSession
    else ThreadBasedSession in
  active <- gets _active_session_cls ;;
  if cls_in ScriptModeSession active
  then raise (RuntimeError "Already in script mode, can't start server")
  else
    (if negb (cls_in cls active)
     then modify (fun w => set_active (_active_session_cls w ++ [cls]) w)
     else ret tt) ;;;
    ret cls.

Definition _start_script_mode_server : M unit :=
  start_server_in_current_thread_session.

(** The [for cls in _active_session_cls] loop of [get_session_implement]
    with the [raise] that follows it. *)
Fixpoint get_session_implement_probe (l : list SessionCls) : M SessionCls :=
  match l with
  | [] => raise SessionNotFoundException
  | cls :: rest =>
      try_except
        (cls_get_current_session cls ;;; ret cls)
        (fun e =>
           if is_SessionNotFoundException e
           then get_session_implement_probe rest
           else raise e)
  end.

Definition get_session_implement : M SessionCls :=
  active <- gets _active_session_cls ;;
  (match active with
   | [] =>
       modify (fun w =>
         set_active (_active_session_cls w ++ [ScriptModeSession]) w) ;;;
       _start_script_mode_server
   | _ :: _ => ret tt
   end) ;;;
  active <- gets _active_session_cls ;;
  if (List.length active =? 1)%nat
  then
    match nth_error active 0 with
    | Some cls => ret cls
    | None => raise (OtherError "IndexError")
    end
  else get_session_implement_probe active.

Definition get_current_session : M Session :=
  cls <- get_session_implement ;;
  cls_get_current_session cls.

(** Modelled from the spec: the method [send_task_command] of the absent
    session classes, the outbound contract of section 6: fire-and-forget,
    order preserved.  Beside the message the world keeps how many deliveries
    the unit had taken when it sent it. *)
Definition session_send_task_command (s : Session) (msg : message) : M unit :=
  modify (fun w =>
    set_sent_at (sent_at w ++ [received w])
      (set_outbound (outbound w ++ [msg]) w)).

(** Modelled from the spec: [send_msg] of the absent [io_ctrl].  Like every
    interactive call it takes no session and resolves the current one afresh
    from the ambient context (section 2), then hands the message to it
    (section 6); outside a session the resolution fails and nothing is
    sent. *)
Definition send_msg (cmd : string) (spec_ : data) : M unit :=
  s <- get_current_session ;;
  session_send_task_command s {| command := cmd; spec := spec_ |}.

(** [k in ('title', ...)], [k in kwargs] *)
Definition str_in (k : string) (l : list string) : bool :=
  existsb (String.eqb k) l.

(** The call [f(x, **kwargs)] of a function [fname] whose positional
    parameter is named [param]: a keyword of that name collides with the
    positional argument and the call raises [TypeError] before the body of
    the function runs. *)
Definition call_with_keywords {A : Type} (fname param : string)
    (f : list (string * data) -> M A) (kwargs : list (string * data)) : M A :=
  if str_in param (map fst kwargs)
  then raise (TypeError
    (fname ++ "() got multiple values for argument '" ++ param ++ "'"))
  else f kwargs.

(** A Python function: its [__name__] and what calling it does. *)
Record pyfunc (A B : Type) : Type := {
  func_name : string;
  func_call : A -> M B
}.

Definition check_session_impl (session_type : SessionCls)
    {A B : Type} (func : pyfunc A B) : pyfunc A B :=
  {| func_name := func_name func;
     func_call := fun args =>
       curr_impl <- get_session_implement ;;
       if negb (issubclass curr_impl session_type)
       then
         raise (RuntimeError
           ("Only can invoke `" ++ func_name func ++ "` in "
            ++ cls_name session_type ++ " context."
            ++ " You are now in " ++ cls_name curr_impl ++ " context"))
       else func_call func args |}.

(** ** Generators and the two drivers *)

(** A Python object as the dispatch adapter sees it: plain data ([None] is
    [PyData DNone]), a client event, or an awaitable.  An awaitable is the
    computation that awaiting it performs. *)
Inductive pyobj : Type :=
| PyData (d : data)
| PyEvent (ev : client_event)
| PyCoroutine (c : nat -> World -> World * outcome pyobj).

Definition PyNone : pyobj := PyData DNone.

(** What [gen.send(value)] comes to when it does not raise: the generator
    suspends at a [yield], or it finishes ([StopIteration]) with a value. *)
Inductive gen_step (St : Type) : Type :=
| Yield (y : pyobj) (st : St)
| Return (r : pyobj).
Arguments Yield {St} y st.
Arguments Return {St} r.

(** A generator object: the frame it is suspended in and what resuming that
    frame with a sent value does.  Calling a generator function builds the
    object and runs nothing. *)
Record generator : Type := {
  gen_state : Type;
  gen_frame : gen_state;
  gen_send : gen_state -> pyobj -> M (gen_step gen_state)
}.

(** The loop of [run_as_function], from the frame [st] with [res] to send. *)
Fixpoint run_as_function_from {St : Type}
    (send : St -> pyobj -> M (gen_step St)) (st : St) (res : pyobj)
    (fuel : nat) (w : World) {struct fuel} : World * outcome pyobj :=
  match fuel with
  | 0 => (w, OutOfFuel)
  | S fuel' =>
      match send st res fuel' w with
      | (w', Ok (Yield y st')) => run_as_function_from send st' y fuel' w'
      | (w', Ok (Return r)) => (w', Ok r)
      | (w', Raise e) => (w', Raise e)
      | (w', OutOfFuel) => (w', OutOfFuel)
      end
  end.

(** Modelled from the spec: [run_as_function] of the absent [..utils], the
    thread-side driver of section 4.5: it synchronously drives the generator
    to completion, feeding the result of each yielded suspending call back
    into the generator, and returns the final value directly. *)
Definition run_as_function (gen : generator) : M pyobj :=
  run_as_function_from (gen_send gen) (gen_frame gen) PyNone.

(** [await c] *)
Definition await (c : pyobj) : M pyobj :=
  match c with
  | PyCoroutine run => run
  | _ => raise (TypeError "object can't be used in 'await' expression")
  end.

(** The loop of [to_coroutine], from the frame [st] with [res] to send. *)
Fixpoint to_coroutine_from {St : Type}
    (send : St -> pyobj -> M (gen_step St)) (st : St) (res : pyobj)
    (fuel : nat) (w : World) {struct fuel} : World * outcome pyobj :=
  match fuel with
  | 0 => (w, OutOfFuel)
  | S fuel' =>
      match send st res fuel' w with
      | (w', Ok (Yield c st')) =>
          match await c fuel' w' with
          | (w'', Ok res') => to_coroutine_from send st' res' fuel' w''
          | (w'', Raise e) => (w'', Raise e)
          | (w'', OutOfFuel) => (w'', OutOfFuel)
          end
      | (w', Ok (Return r)) => (w', Ok r)
      | (w', Raise e) => (w', Raise e)
      | (w', OutOfFuel) => (w', OutOfFuel)
      end
  end.

(** Modelled from the spec: [to_coroutine] of the absent [..utils], the
    coroutine-side driver of section 4.5: an awaitable whose eventual result
    is the generator's return value; the scheduler pumps the same sequence,
    awaiting each yielded suspending call. *)
Definition to_coroutine (gen : generator) : pyobj :=
  PyCoroutine (to_coroutine_from (gen_send gen) (gen_frame gen) PyNone).

Definition chose_impl {A : Type} (gen_func : A -> generator) (args : A)
    : M pyobj :=
  let gen := gen_func args in
  cls <- get_session_implement ;;
  if cls_eqb cls CoroutineBasedSession
  then ret (to_coroutine gen)
  else run_as_function gen.

(** ** The suspension primitive and what is built on it *)

(** One inbound delivery taken from the pending queue of the session. *)
Definition take_client_event : M pyobj :=
  fun _ w =>
    let w' := set_received (S (received w)) w in
    match inbound w (received w) with
    | Event ev => (w', Ok (PyEvent ev))
    | Fail e => (w', Raise e)
    end.

(** Modelled from the spec: the method [session.next_client_event()] of the
    absent session classes (section 4.2): a thread-backed session blocks the
    caller until one inbound event is there and returns it, or fails with
    the session condition it is released with; a coroutine-backed session
    hands back the awaitable that does so. *)
Definition session_next_client_event (s : Session) : M pyobj :=
  if cls_eqb (session_cls s) CoroutineBasedSession
  then ret (PyCoroutine take_client_event)
  else take_client_event.

(** The two frames of a generator with a single [yield]. *)
Inductive frame1 : Type := AtStart | AtYield.

(** The generator function under [@chose_impl def next_client_event()]. *)
Definition next_client_event_gen (_ : unit) : generator :=
  {| gen_state := frame1;
     gen_frame := AtStart;
     gen_send := fun st res =>
       match st with
       | AtStart =>
           s <- get_current_session ;;
           c <- session_next_client_event s ;;
           ret (Yield c AtYield)
       | AtYield => ret (Return res)
       end |}.

Definition next_client_event : M pyobj := chose_impl next_client_event_gen tt.

(** The generator function under [@chose_impl def hold()].  Both frames
    continue at the head of the [while True] loop; the value sent in at the
    [yield] is dropped. *)
Definition hold_gen (_ : unit) : generator :=
  {| gen_state := frame1;
     gen_frame := AtStart;
     gen_send := fun _ _ =>
       try_except
         (c <- next_client_event ;; ret (Yield c AtYield))
         (fun e =>
            if is_SessionException e
            then ret (Return PyNone)
            else raise e) |}.

Definition hold : M pyobj := chose_impl hold_gen tt.

Definition run_js (code_ : string) (args : list (string * data)) : M unit :=
  send_msg "run_script" (DDict [("code", DStr code_); ("args", DDict args)]).

Definition nl : string := String (Ascii.ascii_of_nat 10) EmptyString.
Definition dq : string := String (Ascii.ascii_of_nat 34) EmptyString.

(** The text of the script before and after the [%r] of the expression. *)
Definition eval_js_script_head : string :=
  nl ++ "    (function(WebIO){" ++ nl
  ++ "        let ____result____ = null;  // to avoid naming conflict" ++ nl
  ++ "        try{" ++ nl
  ++ "            ____result____ = eval(".

Definition eval_js_script_tail : string :=
  ");" ++ nl
  ++ "        }catch{};" ++ nl
  ++ "        " ++ nl
  ++ "        WebIO.sendMessage({" ++ nl
  ++ "            event: " ++ dq ++ "js_yield" ++ dq ++ "," ++ nl
  ++ "            task_id: WebIOCurrentTaskID,  // local var in run_script command" ++ nl
  ++ "            data: ____result____ || null" ++ nl
  ++ "        });" ++ nl
  ++ "    })(WebIO);".

(** [obj[key]] for the objects the module subscripts. *)
Definition getitem (obj : pyobj) (key : string) : M pyobj :=
  match obj with
  | PyEvent ev =>
      if key =? "event" then ret (PyData (DStr (ev_event ev)))
      else if key =? "data" then ret (PyData (ev_data ev))
      else raise (OtherError "KeyError")
  | _ => raise (TypeError "object is not subscriptable")
  end.

(** [obj == s] for a string literal [s] *)
Definition py_eq_str (obj : pyobj) (s : string) : bool :=
  match obj with
  | PyData (DStr s') => s' =? s
  | _ => false
  end.

Section EvalJs.

(** Python's [repr] of a string, which [%r] formats with *)
Variable repr : string -> string.

(** The generator function under [@chose_impl def eval_js(...)], from the
    bound parameters: [args] is the dictionary bound to [**args], which has
    no key [expression_]. *)
Definition eval_js_gen (call : string * list (string * data)) : generator :=
  let '(expression_, args) := call in
  {| gen_state := frame1;
     gen_frame := AtStart;
     gen_send := fun st res =>
       match st with
       | AtStart =>
           let script :=
             (eval_js_script_head ++ repr expression_
              ++ eval_js_script_tail)%string in
           call_with_keywords "run_js" "code_" (run_js script) args ;;;
           c <- next_client_event ;;
           ret (Yield c AtYield)
       | AtYield =>
           kind <- getitem res "event" ;;
           if negb (py_eq_str kind "js_yield")
           then raise (AssertionError
             ("Internal Error, please report this bug on "
              ++ "https://github.com/wang0618/PyWebIO/issues"))
           else
             payload <- getitem res "data" ;;
             ret (Return payload)
       end |}.

Definition eval_js (expression_ : string) (args : list (string * data))
    : M pyobj :=
  chose_impl eval_js_gen (expression_, args).

End EvalJs.

Section KindSpecific.

(** The methods of the session object behind the two kind-specific
    operations. *)
Variable session_run_async : Session -> pyobj -> M pyobj.
Variable session_register_thread : Session -> pyobj -> M pyobj.

Definition run_async : pyfunc pyobj pyobj :=
  check_session_impl CoroutineBasedSession
    {| func_name := "run_async";
       func_call := fun coro_obj =>
         s <- get_current_session ;;
         session_run_async s coro_obj |}.

Definition register_thread : pyfunc pyobj pyobj :=
  check_session_impl ThreadBasedSession
    {| func_name := "register_thread";
       func_call := fun thread =>
         s <- get_current_session ;;
         session_register_thread s thread |}.

End KindSpecific.

(** The option names [set_env] accepts. *)
Definition set_env_keys : list string :=
  ["title"; "output_animation"; "auto_scroll_bottom"; "http_pull_interval"].

Definition set_env (env_info : list (string * data)) : M unit :=
  if negb (forallb (fun k => str_in k set_env_keys) (map fst env_info))
  then raise (AssertionError "")
  else send_msg "set_env" (DDict env_info).

(** The value a caller obtains from a dispatched function: the result of the
    call, or under the coroutine-backed kind the result of awaiting it
    ([await f(...)]). *)
Definition completed (m : M pyobj) : M pyobj :=
  r <- m ;;
  match r with
  | PyCoroutine _ => await r
  | _ => ret r
  end.

(** ** Specification-side notions *)

(** Whether implement [cls] finds a session for the calling execution unit. *)
Definition recognises (w : World) (cls : SessionCls) : bool :=
  match current_session_of w cls with
  | Some _ => true
  | None => false
  end.

(** The implement that resolution arrives at in [w], as a function of the
    registry and the ambient context alone. *)
Definition resolved (w : World) : option SessionCls :=
  match _active_session_cls w with
  | [] => Some ScriptModeSession
  | [cls] => Some cls
  | l => find (recognises w) l
  end.

(** The world after the lazy bootstrap of script mode. *)
Definition script_mode_bootstrapped (w : World) : World :=
  set_script_mode_servers (S (script_mode_servers w))
    (set_active (_active_session_cls w ++ [ScriptModeSession]) w).

(** [w'] is [w] as far as the session context goes: the same implement is
    resolved, with the same ambient sessions and the same inbound traffic. *)
Definition same_context (w w' : World) : Prop :=
  resolved w' = resolved w
  /\ current_session_of w' = current_session_of w
  /\ inbound w' = inbound w.

(** What a delivery makes of the call that takes it. *)
Definition delivered (d : delivery) : outcome pyobj :=
  match d with
  | Event ev => Ok (PyEvent ev)
  | Fail e => Raise e
  end.

(** The registry invariant: no implement is listed twice, and script mode
    shares the registry with no other implement. *)
Definition registry_ok (l : list SessionCls) : Prop :=
  NoDup l /\ (In ScriptModeSession l -> l = [ScriptModeSession]).

(** A call that touches the registry. *)
Inductive registry_call (target : Type) : Type :=
| CallRegister (target_func : target)
| CallResolve.
Arguments CallResolve {target}.

(** The world after a sequence of such calls; a caller may catch what a call
    raises and go on. *)
Fixpoint run_calls {target : Type} `{TaskShape target}
    (calls : list (registry_call target)) (w : World) : World :=
  match calls with
  | [] => w
  | CallRegister f :: rest =>
      run_calls rest (fst (register_session_implement_for_target f 0 w))
  | CallResolve :: rest =>
      run_calls rest (fst (get_session_implement 0 w))
  end.

(** The generator behind [send], resumed in frame [st] with [res], runs to
    completion and returns [r] when each value it yields is turned into the
    next value to send by [deliver]. *)
Inductive gen_runs {St : Type} (send : St -> pyobj -> M (gen_step St))
    (deliver : pyobj -> M pyobj)
    : St -> pyobj -> World -> World -> pyobj -> Prop :=
| gen_runs_return : forall st res w w' r,
    returns (send st res) w w' (Return r) ->
    gen_runs send deliver st res w w' r
| gen_runs_yield : forall st res w w1 y st' w2 res' w' r,
    returns (send st res) w w1 (Yield y st') ->
    returns (deliver y) w1 w2 res' ->
    gen_runs send deliver st' res' w2 w' r ->
    gen_runs send deliver st res w w' r.

(** ** Concrete inputs *)

(** The three shapes a task function is written in. *)
Inductive task_def : Type := AsyncDef | GeneratorDef | PlainDef.

#[export] Instance task_def_shape : TaskShape task_def := {
  iscoroutinefunction := fun f =>
    match f with AsyncDef => true | _ => false end;
  isgeneratorfunction := fun f =>
    match f with GeneratorDef => true | _ => false end
}.

Definition js_reply : client_event :=
  {| ev_event := "js_yield"; ev_data := DInt 2 |}.

Definition js_reply_none : client_event :=
  {| ev_event := "js_yield"; ev_data := DNone |}.

Definition callback_event : client_event :=
  {| ev_event := "callback"; ev_data := DStr "btn" |}.

(** A fresh world with the given registry, ambient context and traffic. *)
Definition world_of (active : list SessionCls)
    (current : SessionCls -> option nat) (traffic : nat -> delivery) : World :=
  {| _active_session_cls := active;
     script_mode_servers := 0;
     current_session_of := current;
     probed := [];
     outbound := [];
     sent_at := [];
     inbound := traffic;
     received := 0 |}.

(** The caller runs inside session 1 of whichever implement is asked. *)
Definition in_session_1 (_ : SessionCls) : option nat := Some 1.

(** The caller is a coroutine of session 7; no thread-backed session knows
    it. *)
Definition in_coroutine_session_7 (cls : SessionCls) : option nat :=
  match cls with
  | CoroutineBasedSession => Some 7
  | _ => None
  end.

(** Two events and then the session is closed. *)
Definition two_events_then_closed (i : nat) : delivery :=
  match i with
  | 0 => Event callback_event
  | 1 => Event js_reply
  | _ => Fail SessionClosedException
  end.

Definition only_replies (_ : nat) : delivery := Event js_reply.

Definition only_none_replies (_ : nat) : delivery := Event js_reply_none.

Definition mixed_world : World :=
  world_of [ThreadBasedSession; CoroutineBasedSession]
    in_coroutine_session_7 two_events_then_closed.

Definition fresh_world : World :=
  world_of [] in_session_1 two_events_then_closed.

Definition script_world : World :=
  world_of [ScriptModeSession] in_session_1 two_events_then_closed.

Definition thread_world : World :=
  world_of [ThreadBasedSession] in_session_1 two_events_then_closed.

Definition coroutine_world : World :=
  world_of [CoroutineBasedSession] in_session_1 two_events_then_closed.

Definition coroutine_world_replies : World :=
  world_of [CoroutineBasedSession] in_session_1 only_replies.

Definition none_reply_world : World :=
  world_of [ThreadBasedSession] in_session_1 only_none_replies.

(** A stand-in for [repr]: the string between double quotes. *)
Definition quoted (s : string) : string := dq ++ s ++ dq.

(** A session method that does nothing and returns [None]. *)
Definition method_noop (_ : Session) (_ : pyobj) : M pyobj := ret PyNone.

(** ** Further functions of the module *)

Definition go_app (name : string) (new_window : bool) : M unit :=
  run_js "javascript:WebIO.openApp(app, new_window)"
    [("app", DStr name); ("new_window", DBool new_window)].

Section SessionMethods.

(** The callables handed to [defer_call], and the methods of the session
    object behind [defer_call] and [run_asyncio_coroutine]; the latter is an
    [async def], so calling it hands back an awaitable. *)
Variable callable : Type.
Variable session_defer_call : Session -> callable -> M unit.
Variable session_run_asyncio_coroutine : Session -> pyobj -> M pyobj.

Definition defer_call (func : callable) : M callable :=
  s <- get_current_session ;;
  session_defer_call s func ;;;
  ret func.

(** [run_asyncio_coroutine] is an [async def] under the capability check:
    the check runs at the call, the body when the result is awaited. *)
Definition run_asyncio_coroutine : pyfunc pyobj pyobj :=
  check_session_impl CoroutineBasedSession
    {| func_name := "run_asyncio_coroutine";
       func_call := fun coro_obj =>
         ret (PyCoroutine
                (s <- get_current_session ;;
                 c <- session_run_asyncio_coroutine s coro_obj ;;
                 await c)) |}.

End SessionMethods.

(** A call of one of the functions that only send a message. *)
Inductive output_call : Type :=
| CallRunJs (code_ : string) (args : list (string * data))
| CallGoApp (name : string) (new_window : bool)
| CallSetEnv (env_info : list (string * data)).

Definition do_output_call (c : output_call) : M unit :=
  match c with
  | CallRunJs code_ args =>
      call_with_keywords "run_js" "code_" (run_js code_) args
  | CallGoApp name new_window => go_app name new_window
  | CallSetEnv env_info => set_env env_info
  end.

(** The world after a sequence of such calls, each one made whatever the
    one before came to. *)
Fixpoint do_output_calls (calls : list output_call) (w : World) : World :=
  match calls with
  | [] => w
  | c :: rest => do_output_calls rest (fst (do_output_call c 0 w))
  end.

(** The message a call of that kind puts on the wire, if any. *)
Definition message_of (c : output_call) : list message :=
  match c with
  | CallRunJs code_ args =>
      if str_in "code_" (map fst args)
      then []
      else [{| command := "run_script";
               spec := DDict [("code", DStr code_); ("args", DDict args)] |}]
  | CallGoApp name new_window =>
      [{| command := "run_script";
          spec := DDict
            [("code", DStr "javascript:WebIO.openApp(app, new_window)");
             ("args", DDict [("app", DStr name);
                             ("new_window", DBool new_window)])] |}]
  | CallSetEnv env_info =>
      if forallb (fun k => str_in k set_env_keys) (map fst env_info)
      then [{| command := "set_env"; spec := DDict env_info |}]
      else []
  end.

(** Two kinds are registered and neither knows the caller. *)
Definition stray_world : World :=
  world_of [ThreadBasedSession; CoroutineBasedSession]
    (fun _ => None) two_events_then_closed.

(** One thread-backed kind is registered and it does not know the caller. *)
Definition unregistered_thread_world : World :=
  world_of [ThreadBasedSession] (fun _ => None) two_events_then_closed.

(** An event and then a failure that is no session condition. *)
Definition event_then_crash (i : nat) : delivery :=
  match i with
  | 0 => Event callback_event
  | _ => Fail (OtherError "ConnectionError")
  end.

Definition crash_world : World :=
  world_of [ThreadBasedSession] in_session_1 event_then_crash.

(** Every run of [m], whatever it comes to, leaves a world related by [P]
    to the one it started in. *)
Definition keeps (P : World -> World -> Prop) {A : Type} (m : M A) : Prop :=
  forall fuel w, P w (fst (m fuel w)).

(** An object that, if it is an awaitable, [keeps P] when awaited. *)
Definition kept_obj (P : World -> World -> Prop) (o : pyobj) : Prop :=
  match o with
  | PyCoroutine c => keeps P c
  | _ => True
  end.

(** What [m] returns is a [kept_obj]. *)
Definition gives_kept (P : World -> World -> Prop) (m : M pyobj) : Prop :=
  forall fuel w v, snd (m fuel w) = Ok v -> kept_obj P v.

(** A generator all of whose resumptions [keeps P], which yields only
    [kept_obj]s, and which returns one when it has been sent one. *)
Definition kept_gen (P : World -> World -> Prop) (gen : generator) : Prop :=
  (forall st res, keeps P (gen_send gen st res))
  /\ (forall st res fuel w y st',
        snd (gen_send gen st res fuel w) = Ok (Yield y st') -> kept_obj P y)
  /\ (forall st res fuel w r,
        kept_obj P res ->
        snd (gen_send gen st res fuel w) = Ok (Return r) -> kept_obj P r).

(** [w'] has the outbound messages of [w]. *)
Definition nothing_sent (w w' : World) : Prop := outbound w' = outbound w.

(** A registry that is not empty, and the server count with it, are in [w']
    what they are in [w]. *)
Definition registry_kept (w w' : World) : Prop :=
  _active_session_cls w <> [] ->
  _active_session_cls w' = _active_session_cls w
  /\ script_mode_servers w' = script_mode_servers w.

(** The session is closed before any event comes. *)
Definition closed_world : World :=
  world_of [ThreadBasedSession] in_session_1
    (fun _ => Fail SessionClosedException).

(** [w'] has the registry and the server count of [w], but for the lazy
    bootstrap of script mode that an empty registry undergoes. *)
Definition bootstrap_only (w w' : World) : Prop :=
  _active_session_cls w'
  = match _active_session_cls w with
    | [] => [ScriptModeSession]
    | l => l
    end
  /\ script_mode_servers w'
     = match _active_session_cls w with
       | [] => S (script_mode_servers w)
       | _ => script_mode_servers w
       end.

(** [w'] has the outbound messages of [w] and their stamps. *)
Definition sends_kept (w w' : World) : Prop :=
  outbound w' = outbound w /\ sent_at w' = sent_at w.

(** [w'] has the message traffic of [w]: nothing was sent and nothing was
    taken. *)
Definition traffic_kept (w w' : World) : Prop :=
  outbound w' = outbound w
  /\ sent_at w' = sent_at w
  /\ received w' = received w.

(** ** Basic facts *)

Lemma cls_eqb_eq (a b : SessionCls) : cls_eqb a b = true <-> a = b.
Proof. destruct a, b; simpl; split; congruence. Qed.

Lemma cls_eqb_refl (a : SessionCls) : cls_eqb a a = true.
Proof. now destruct a. Qed.

Lemma cls_eqb_neq (a b : SessionCls) : cls_eqb a b = false <-> a <> b.
Proof. destruct a, b; simpl; split; congruence. Qed.

Lemma cls_in_In (c : SessionCls) (l : list SessionCls) :
  cls_in c l = true <-> In c l.
Proof.
  unfold cls_in. rewrite existsb_exists. split.
  - intros [x [Hx Heq]]. apply cls_eqb_eq in Heq. now subst.
  - intros Hin. exists c. split; [assumption | apply cls_eqb_refl].
Qed.

Lemma cls_in_not_In (c : SessionCls) (l : list SessionCls) :
  cls_in c l = false <-> ~ In c l.
Proof.
  rewrite <- cls_in_In. destruct (cls_in c l); split; congruence.
Qed.

Lemma issubclass_refl (c : SessionCls) : issubclass c c = true.
Proof. now destruct c. Qed.

Lemma str_in_In (k : string) (l : list string) : str_in k l = true <-> In k l.
Proof.
  unfold str_in. rewrite existsb_exists. split.
  - intros [x [Hx Heq]]. apply String.eqb_eq in Heq. now subst.
  - intros Hin. exists k. split; [assumption | apply String.eqb_refl].
Qed.

Lemma get_session_implement_probe_fuel (l : list SessionCls) :
  forall fuel fuel' w,
    get_session_implement_probe l fuel w = get_session_implement_probe l fuel' w.
Proof.
  induction l as [|c l IH]; intros fuel fuel' w; simpl.
  - reflexivity.
  - unfold try_except, bind, cls_get_current_session, ret.
    destruct (current_session_of w c); simpl; [reflexivity | apply IH].
Qed.

Lemma get_session_implement_eq (fuel : nat) (w : World) :
  get_session_implement fuel w
  = match _active_session_cls w with
    | [] => (script_mode_bootstrapped w, Ok ScriptModeSession)
    | [cls] => (w, Ok cls)
    | l => get_session_implement_probe l fuel w
    end.
Proof.
  unfold get_session_implement, bind, gets.
  destruct (_active_session_cls w) as [|c [|c' l]] eqn:E; simpl.
  - unfold script_mode_bootstrapped. rewrite E. reflexivity.
  - rewrite E. reflexivity.
  - rewrite E. reflexivity.
Qed.

Lemma get_session_implement_fuel (fuel fuel' : nat) (w : World) :
  get_session_implement fuel w = get_session_implement fuel' w.
Proof.
  rewrite !get_session_implement_eq.
  destruct (_active_session_cls w) as [|c [|c' l]]; try reflexivity.
  apply get_session_implement_probe_fuel.
Qed.

(** The probe loop stops at the first implement that recognises the caller
    and has called exactly the implements before it and itself. *)
Lemma get_session_implement_probe_found (pre : list SessionCls) :
  forall cls post fuel w,
    (forall c, In c pre -> current_session_of w c = None) ->
    current_session_of w cls <> None ->
    get_session_implement_probe (pre ++ cls :: post) fuel w
    = (set_probed (probed w ++ pre ++ [cls]) w, Ok cls).
Proof.
  induction pre as [|a pre IH]; intros cls post fuel w Hpre Hcls; simpl.
  - unfold try_except, bind, cls_get_current_session, ret.
    destruct (current_session_of w cls); [reflexivity | congruence].
  - unfold try_except, bind, cls_get_current_session.
    rewrite (Hpre a (or_introl eq_refl)). simpl.
    rewrite IH.
    + simpl. rewrite <- app_assoc. reflexivity.
    + intros c Hc. simpl. apply Hpre. now right.
    + exact Hcls.
Qed.

(** When no implement recognises the caller the loop calls all of them and
    the function raises [SessionNotFoundException]. *)
Lemma get_session_implement_probe_none (l : list SessionCls) :
  forall fuel w,
    (forall c, In c l -> current_session_of w c = None) ->
    get_session_implement_probe l fuel w
    = (set_probed (probed w ++ l) w, Raise SessionNotFoundException).
Proof.
  induction l as [|a l IH]; intros fuel w Hl; simpl.
  - unfold raise. rewrite app_nil_r. now destruct w.
  - unfold try_except, bind, cls_get_current_session.
    rewrite (Hl a (or_introl eq_refl)). simpl.
    rewrite IH.
    + simpl. rewrite <- app_assoc. reflexivity.
    + intros c Hc. simpl. apply Hl. now right.
Qed.

Lemma cls_get_current_session_not_found (cls : SessionCls) (fuel : nat)
    (w : World) :
  snd (cls_get_current_session cls fuel w) = Raise SessionNotFoundException
  <-> current_session_of w cls = None.
Proof.
  unfold cls_get_current_session.
  destruct (current_session_of w cls); simpl; split; congruence.
Qed.

(** The probe loop writes to the call log and to nothing else. *)
Lemma get_session_implement_probe_frame (l : list SessionCls) :
  forall fuel w, exists p,
    fst (get_session_implement_probe l fuel w) = set_probed (probed w ++ p) w.
Proof.
  induction l as [|a l IH]; intros fuel w; simpl.
  - exists []. rewrite app_nil_r. now destruct w.
  - unfold try_except, bind, cls_get_current_session, ret.
    destruct (current_session_of w a); simpl.
    + exists [a]. reflexivity.
    + destruct (IH fuel (set_probed (probed w ++ [a]) w)) as [p Hp].
      exists (a :: p). rewrite Hp. simpl. rewrite <- app_assoc. reflexivity.
Qed.

(** ** The context resolver *)

(** C1: with more than one implement registered, resolution calls
    [get_current_session] on the registered implements in registration
    order, returns the first one whose call does not raise
    [SessionNotFoundException] without calling the later ones, and raises
    [SessionNotFoundException] after calling all of them when every call
    raised it. *)
Theorem get_session_implement_probes_in_order :
  forall (fuel : nat) (w : World),
    1 < List.length (_active_session_cls w) ->
    (forall pre cls post,
        _active_session_cls w = pre ++ cls :: post ->
        (forall c, In c pre ->
           snd (cls_get_current_session c fuel w)
           = Raise SessionNotFoundException) ->
        snd (cls_get_current_session cls fuel w)
        <> Raise SessionNotFoundException ->
        get_session_implement fuel w
        = (set_probed (probed w ++ pre ++ [cls]) w, Ok cls))
    /\ ((forall c, In c (_active_session_cls w) ->
           snd (cls_get_current_session c fuel w)
           = Raise SessionNotFoundException) ->
        get_session_implement fuel w
        = (set_probed (probed w ++ _active_session_cls w) w,
           Raise SessionNotFoundException)).
Proof.
  intros fuel w Hlen.
  assert (Heq : get_session_implement fuel w
                = get_session_implement_probe (_active_session_cls w) fuel w).
  { rewrite get_session_implement_eq.
    destruct (_active_session_cls w) as [|c [|c' l]]; simpl in Hlen;
      [lia | lia | reflexivity]. }
  split.
  - intros pre cls post Hreg Hpre Hcls.
    rewrite Heq, Hreg.
    apply get_session_implement_probe_found.
    + intros c Hc. apply (cls_get_current_session_not_found c fuel w).
      now apply Hpre.
    + intro Hnone. apply Hcls.
      now apply cls_get_current_session_not_found.
  - intros Hall. rewrite Heq.
    apply get_session_implement_probe_none.
    intros c Hc. apply (cls_get_current_session_not_found c fuel w).
    now apply Hall.
Qed.

Lemma get_session_implement_probes_in_order_witness :
  1 < List.length (_active_session_cls mixed_world)
  /\ get_session_implement 0 mixed_world
     = (set_probed [ThreadBasedSession; CoroutineBasedSession] mixed_world,
        Ok CoroutineBasedSession).
Proof.
  split.
  - simpl. lia.
  - apply (proj1 (get_session_implement_probes_in_order 0 mixed_world
                    (le_n 2))
             [ThreadBasedSession] CoroutineBasedSession []).
    + reflexivity.
    + intros c [Hc | []]. subst c. reflexivity.
    + simpl. discriminate.
Defined.

(** C5: with an empty registry, resolution appends the script-mode
    implement, starts the script-mode server once and returns the
    script-mode implement; it does not raise. *)
Theorem get_session_implement_bootstraps_script_mode :
  forall (fuel : nat) (w : World),
    _active_session_cls w = [] ->
    get_session_implement fuel w
    = (set_script_mode_servers (S (script_mode_servers w))
         (set_active [ScriptModeSession] w),
       Ok ScriptModeSession).
Proof.
  intros fuel w Hempty.
  rewrite get_session_implement_eq, Hempty.
  unfold script_mode_bootstrapped. rewrite Hempty. reflexivity.
Qed.

Lemma get_session_implement_bootstraps_script_mode_witness :
  _active_session_cls fresh_world = []
  /\ get_session_implement 0 fresh_world
     = (set_script_mode_servers 1 (set_active [ScriptModeSession] fresh_world),
        Ok ScriptModeSession).
Proof.
  split.
  - reflexivity.
  - apply (get_session_implement_bootstraps_script_mode 0 fresh_world).
    reflexivity.
Defined.

(** ** Registration *)

Lemma NoDup_snoc {A : Type} (l : list A) (a : A) :
  NoDup l -> ~ In a l -> NoDup (l ++ [a]).
Proof.
  induction l as [|b l IH]; intros Hnd Hnotin; simpl.
  - constructor; [intros [] | constructor].
  - inversion Hnd as [|b' l' Hb Hl]; subst.
    constructor.
    + intros Hin. apply in_app_or in Hin. destruct Hin as [Hin | [Heq | []]].
      * contradiction.
      * subst. apply Hnotin. now left.
    + apply IH; [assumption |]. intros Hin. apply Hnotin. now right.
Qed.

Section Registration.

Context {target : Type} `{TaskShape target}.

(** What registration does, by the state of the registry. *)
Lemma register_session_implement_for_target_eq
    (target_func : target) (fuel : nat) (w : World) :
  let cls :=
    if iscoroutinefunction target_func || isgeneratorfunction target_func
    then CoroutineBasedSession
    else ThreadBasedSession in
  register_session_implement_for_target target_func fuel w
  = if cls_in ScriptModeSession (_active_session_cls w)
    then (w, Raise (RuntimeError "Already in script mode, can't start server"))
    else if cls_in cls (_active_session_cls w)
    then (w, Ok cls)
    else (set_active (_active_session_cls w ++ [cls]) w, Ok cls).
Proof.
  unfold register_session_implement_for_target, bind, gets, raise, ret,
    modify.
  destruct (cls_in ScriptModeSession (_active_session_cls w));
    [reflexivity |].
  destruct (cls_in _ (_active_session_cls w)); reflexivity.
Qed.

(** C3: registration raises [RuntimeError], with the world and so the
    registry left as they were, exactly when the script-mode implement is
    in the registry at the call; otherwise it raises nothing. *)
Theorem register_raises_iff_script_mode :
  forall (target_func : target) (fuel : nat) (w : World),
    (register_session_implement_for_target target_func fuel w
     = (w, Raise (RuntimeError "Already in script mode, can't start server"))
     <-> In ScriptModeSession (_active_session_cls w))
    /\ ((exists e,
           snd (register_session_implement_for_target target_func fuel w)
           = Raise e)
        <-> In ScriptModeSession (_active_session_cls w)).
Proof.
  intros target_func fuel w.
  rewrite register_session_implement_for_target_eq.
  rewrite <- cls_in_In.
  destruct (cls_in ScriptModeSession (_active_session_cls w)).
  - split; split; intros _; try reflexivity. eexists. reflexivity.
  - destruct (cls_in _ (_active_session_cls w)); simpl;
      (split; split; [congruence | congruence
                      | intros [e He]; congruence | congruence]).
Qed.

(** C4: when registration returns, which it does whenever script mode is
    not registered, the implement it returns and has in the registry is
    the coroutine-backed one for a coroutine function or a generator
    function and the thread-backed one for every other callable. *)
Theorem register_classifies_by_shape :
  forall (target_func : target) (fuel : nat) (w : World),
    let r := register_session_implement_for_target target_func fuel w in
    let cls :=
      if iscoroutinefunction target_func || isgeneratorfunction target_func
      then CoroutineBasedSession
      else ThreadBasedSession in
    (~ In ScriptModeSession (_active_session_cls w) ->
     snd r = Ok cls /\ In cls (_active_session_cls (fst r)))
    /\ (forall cls', snd r = Ok cls' -> cls' = cls)
    /\ (cls = CoroutineBasedSession <->
        iscoroutinefunction target_func = true
        \/ isgeneratorfunction target_func = true)
    /\ (cls = ThreadBasedSession <->
        iscoroutinefunction target_func = false
        /\ isgeneratorfunction target_func = false).
Proof.
  intros target_func fuel w r cls. subst r.
  rewrite register_session_implement_for_target_eq. fold cls.
  split; [| split; [| split]].
  - intros Hns. apply cls_in_not_In in Hns. rewrite Hns.
    destruct (cls_in cls (_active_session_cls w)) eqn:E; simpl.
    + split; [reflexivity | now apply cls_in_In].
    + split; [reflexivity | apply in_or_app; right; now left].
  - intros cls'.
    destruct (cls_in ScriptModeSession (_active_session_cls w));
      [simpl; congruence |].
    destruct (cls_in cls (_active_session_cls w)); simpl; congruence.
  - subst cls.
    destruct (iscoroutinefunction target_func),
      (isgeneratorfunction target_func); simpl; intuition congruence.
  - subst cls.
    destruct (iscoroutinefunction target_func),
      (isgeneratorfunction target_func); simpl; intuition congruence.
Qed.

Lemma register_preserves_registry_ok
    (target_func : target) (fuel : nat) (w : World) :
  registry_ok (_active_session_cls w) ->
  registry_ok
    (_active_session_cls
       (fst (register_session_implement_for_target target_func fuel w))).
Proof.
  intros [Hnd Hscript].
  rewrite register_session_implement_for_target_eq.
  destruct (cls_in ScriptModeSession (_active_session_cls w)) eqn:Es;
    [now split |].
  match goal with
  | |- context [cls_in ?c (_active_session_cls w)] =>
      destruct (cls_in c (_active_session_cls w)) eqn:Ec;
      [now split |]; assert (Hc : c <> ScriptModeSession)
        by (destruct (_ || _); discriminate);
      set (cls := c) in *
  end.
  apply cls_in_not_In in Es, Ec. simpl. split.
  - now apply NoDup_snoc.
  - intros Hin. apply in_app_or in Hin. destruct Hin as [Hin | [Heq | []]].
    + contradiction.
    + congruence.
Qed.

Lemma get_session_implement_registry (fuel : nat) (w : World) :
  _active_session_cls (fst (get_session_implement fuel w))
  = match _active_session_cls w with
    | [] => [ScriptModeSession]
    | l => l
    end.
Proof.
  rewrite get_session_implement_eq.
  destruct (_active_session_cls w) as [|c [|c' l]] eqn:E.
  - simpl. rewrite E. reflexivity.
  - simpl. exact E.
  - destruct (get_session_implement_probe_frame (c :: c' :: l) fuel w)
      as [p Hp].
    rewrite Hp. simpl. exact E.
Qed.

Lemma get_session_implement_preserves_registry_ok (fuel : nat) (w : World) :
  registry_ok (_active_session_cls w) ->
  registry_ok (_active_session_cls (fst (get_session_implement fuel w))).
Proof.
  intros Hok. rewrite get_session_implement_registry.
  destruct (_active_session_cls w); [| assumption].
  split; [| reflexivity].
  constructor; [intros [] | constructor].
Qed.

(** C10: registration keeps the registry free of duplicates and script
    mode alone in it; so does the lazy bootstrap of resolution, which
    turns the empty registry into the script-mode one; and so the
    registry has both properties after every sequence of registration and
    resolution calls that starts from the empty registry. *)
Theorem registry_invariant :
  (forall (target_func : target) (fuel : nat) (w : World),
      registry_ok (_active_session_cls w) ->
      registry_ok
        (_active_session_cls
           (fst (register_session_implement_for_target target_func fuel w))))
  /\ (forall (fuel : nat) (w : World),
        _active_session_cls w = [] ->
        _active_session_cls (fst (get_session_implement fuel w))
        = [ScriptModeSession]
        /\ registry_ok
             (_active_session_cls (fst (get_session_implement fuel w))))
  /\ (forall (calls : list (registry_call target)) (w : World),
        _active_session_cls w = [] ->
        registry_ok (_active_session_cls (run_calls calls w))).
Proof.
  split; [| split].
  - intros target_func fuel w.
    apply register_preserves_registry_ok.
  - intros fuel w Hempty. split.
    + rewrite get_session_implement_registry, Hempty. reflexivity.
    + apply get_session_implement_preserves_registry_ok.
      rewrite Hempty. split; [constructor | intros []].
  - intros calls w Hempty.
    assert (Hok : registry_ok (_active_session_cls w))
      by (rewrite Hempty; split; [constructor | intros []]).
    clear Hempty. revert w Hok.
    induction calls as [|[f |] calls IH]; intros w Hok; simpl.
    + assumption.
    + apply IH. now apply register_preserves_registry_ok.
    + apply IH. now apply get_session_implement_preserves_registry_ok.
Qed.

End Registration.

Lemma register_raises_iff_script_mode_witness :
  In ScriptModeSession (_active_session_cls script_world)
  /\ register_session_implement_for_target PlainDef 0 script_world
     = (script_world,
        Raise (RuntimeError "Already in script mode, can't start server")).
Proof.
  split.
  - simpl. now left.
  - apply (proj1 (register_raises_iff_script_mode PlainDef 0 script_world)).
    simpl. now left.
Defined.

Lemma register_classifies_by_shape_witness :
  ~ In ScriptModeSession (_active_session_cls thread_world)
  /\ snd (register_session_implement_for_target GeneratorDef 0 thread_world)
     = Ok CoroutineBasedSession
  /\ In CoroutineBasedSession
       (_active_session_cls
          (fst (register_session_implement_for_target GeneratorDef 0
                  thread_world))).
Proof.
  assert (Hns : ~ In ScriptModeSession (_active_session_cls thread_world)).
  { simpl. intros [Heq | []]. discriminate. }
  split.
  - exact Hns.
  - exact (proj1 (register_classifies_by_shape GeneratorDef 0 thread_world)
             Hns).
Defined.

Lemma registry_invariant_witness :
  _active_session_cls fresh_world = []
  /\ registry_ok
       (_active_session_cls
          (run_calls [CallRegister PlainDef; CallRegister AsyncDef;
                      CallResolve; CallRegister PlainDef] fresh_world)).
Proof.
  split.
  - reflexivity.
  - apply (proj2 (proj2 (@registry_invariant task_def _))). reflexivity.
Defined.

(** ** The capability check *)

Lemma issubclass_true_iff (c parent : SessionCls) :
  issubclass c parent = true
  <-> c = parent \/ (c = ScriptModeSession /\ parent = ThreadBasedSession).
Proof.
  destruct c, parent; simpl; intuition congruence.
Qed.

(** C6, as the code has it: the wrapper resolves the current implement;
    when that implement is neither the required class nor a subclass of it
    (script mode is a subclass of the thread-backed class) it raises a
    [RuntimeError] whose message names the function, the required class and
    the current class, and the wrapped function is not called; otherwise, in
    particular when the two are the same class, the wrapped function is
    called with the original arguments and its outcome is the outcome of the
    call. *)
Theorem check_session_impl_gate :
  forall (session_type : SessionCls) (A B : Type) (func : pyfunc A B)
         (args : A) (fuel : nat) (w w1 : World) (curr_impl : SessionCls),
    get_session_implement fuel w = (w1, Ok curr_impl) ->
    (issubclass curr_impl session_type = false ->
     func_call (check_session_impl session_type func) args fuel w
     = (w1, Raise (RuntimeError
          ("Only can invoke `" ++ func_name func ++ "` in "
           ++ cls_name session_type ++ " context."
           ++ " You are now in " ++ cls_name curr_impl ++ " context"))))
    /\ (issubclass curr_impl session_type = true ->
        func_call (check_session_impl session_type func) args fuel w
        = func_call func args fuel w1)
    /\ (curr_impl = session_type ->
        func_call (check_session_impl session_type func) args fuel w
        = func_call func args fuel w1).
Proof.
  intros session_type A B func args fuel w w1 curr_impl Hres.
  assert (Hcall : forall b, issubclass curr_impl session_type = b ->
            func_call (check_session_impl session_type func) args fuel w
            = if negb b
              then (w1, Raise (RuntimeError
                     ("Only can invoke `" ++ func_name func ++ "` in "
                      ++ cls_name session_type ++ " context."
                      ++ " You are now in " ++ cls_name curr_impl
                      ++ " context")))
              else func_call func args fuel w1).
  { intros b Hb. simpl. unfold bind. rewrite Hres, Hb.
    destruct b; reflexivity. }
  split; [| split].
  - intros Hsub. now rewrite (Hcall false Hsub).
  - intros Hsub. now rewrite (Hcall true Hsub).
  - intros ->. now rewrite (Hcall true (issubclass_refl session_type)).
Qed.

Lemma check_session_impl_gate_witness :
  get_session_implement 0 thread_world = (thread_world, Ok ThreadBasedSession)
  /\ issubclass ThreadBasedSession CoroutineBasedSession = false
  /\ func_call (run_async method_noop) PyNone 0 thread_world
     = (thread_world,
        Raise (RuntimeError
          ("Only can invoke `run_async` in CoroutineBasedSession context."
           ++ " You are now in ThreadBasedSession context"))).
Proof.
  split; [reflexivity | split; [reflexivity |]].
  apply (proj1 (@check_session_impl_gate CoroutineBasedSession pyobj pyobj
                  {| func_name := "run_async";
                     func_call := fun coro_obj =>
                       bind get_current_session
                         (fun s => method_noop s coro_obj) |}
                  PyNone 0 thread_world thread_world ThreadBasedSession
                  eq_refl)).
  reflexivity.
Defined.

(** C6, as stated, fails in script mode: the resolved implement is the
    script-mode class, the required one is the thread-backed class, the two
    differ, and [register_thread] is called and returns instead of raising
    [RuntimeError]. *)
Lemma check_session_impl_script_mode_passes :
  get_session_implement 0 script_world = (script_world, Ok ScriptModeSession)
  /\ ScriptModeSession <> ThreadBasedSession
  /\ func_call (register_thread method_noop) PyNone 0 script_world
     = (set_probed [ScriptModeSession] script_world, Ok PyNone).
Proof.
  split; [reflexivity | split; [discriminate | reflexivity]].
Qed.

(** ** The two drivers and the dispatch adapter *)

Lemma returns_ret {A : Type} (a b : A) (w w' : World) :
  returns (ret a) w w' b -> w' = w /\ b = a.
Proof.
  intros [n Hn]. specialize (Hn n (le_n n)). unfold ret in Hn.
  split; congruence.
Qed.

Section Drivers.

Variable St : Type.
Variable send : St -> pyobj -> M (gen_step St).

(** The synchronous driver returns what the generator returns when every
    yielded value is sent straight back. *)
Lemma run_as_function_from_complete :
  forall st res w w' r,
    gen_runs send ret st res w w' r ->
    returns (run_as_function_from send st res) w w' r.
Proof.
  induction 1 as [st res w w' r [n Hn]
                 | st res w w1 y st' w2 res' w' r [n Hn] Hdel _ [m Hm]].
  - exists (S n). intros [|k] Hk; [lia |]. simpl.
    rewrite Hn by lia. reflexivity.
  - apply returns_ret in Hdel. destruct Hdel as [-> ->].
    exists (S (Nat.max n m)). intros [|k] Hk; [lia |]. simpl.
    rewrite Hn by lia. apply Hm. lia.
Qed.

(** The awaitable built by the coroutine driver comes to what the
    generator returns when every yielded awaitable is awaited and its
    result sent back. *)
Lemma to_coroutine_from_complete :
  forall st res w w' r,
    gen_runs send await st res w w' r ->
    returns (to_coroutine_from send st res) w w' r.
Proof.
  induction 1 as [st res w w' r [n Hn]
                 | st res w w1 y st' w2 res' w' r [n Hn] [d Hd] _ [m Hm]].
  - exists (S n). intros [|k] Hk; [lia |]. simpl.
    rewrite Hn by lia. reflexivity.
  - exists (S (Nat.max n (Nat.max d m))). intros [|k] Hk; [lia |]. simpl.
    rewrite Hn by lia. rewrite Hd by lia. apply Hm. lia.
Qed.

End Drivers.

Lemma chose_impl_eq {A : Type} (gen_func : A -> generator) (args : A)
    (fuel : nat) (w : World) :
  chose_impl gen_func args fuel w
  = match get_session_implement fuel w with
    | (w1, Ok cls) =>
        if cls_eqb cls CoroutineBasedSession
        then (w1, Ok (to_coroutine (gen_func args)))
        else run_as_function (gen_func args) fuel w1
    | (w1, Raise e) => (w1, Raise e)
    | (w1, OutOfFuel) => (w1, OutOfFuel)
    end.
Proof.
  unfold chose_impl, bind.
  destruct (get_session_implement fuel w) as [w1 [cls | e |]];
    [| reflexivity | reflexivity].
  destruct (cls_eqb cls CoroutineBasedSession); reflexivity.
Qed.

(** C2: when resolution gives the coroutine-backed implement, the wrapper
    returns at once an awaitable, and awaiting it comes to the value the
    generator returns when each awaitable it yields is awaited and the
    result sent back; under any other resolved implement the wrapper itself
    drives the generator to completion, sending each yielded result back,
    and returns the value the generator returns. *)
Theorem chose_impl_dispatch :
  forall (A : Type) (gen_func : A -> generator) (args : A)
         (w w1 : World) (cls : SessionCls),
    returns get_session_implement w w1 cls ->
    (cls = CoroutineBasedSession ->
     exists c,
       returns (chose_impl gen_func args) w w1 (PyCoroutine c)
       /\ forall wa wb r,
            gen_runs (gen_send (gen_func args)) await
              (gen_frame (gen_func args)) PyNone wa wb r ->
            returns (await (PyCoroutine c)) wa wb r)
    /\ (cls <> CoroutineBasedSession ->
        forall w2 r,
          gen_runs (gen_send (gen_func args)) ret
            (gen_frame (gen_func args)) PyNone w1 w2 r ->
          returns (chose_impl gen_func args) w w2 r).
Proof.
  intros A gen_func args w w1 cls [n Hn]. split.
  - intros ->.
    exists (to_coroutine_from (gen_send (gen_func args))
              (gen_frame (gen_func args)) PyNone).
    split.
    + exists n. intros k Hk. rewrite chose_impl_eq, (Hn k Hk). reflexivity.
    + intros wa wb r Hruns. simpl.
      now apply to_coroutine_from_complete.
  - intros Hcls w2 r Hruns.
    apply run_as_function_from_complete in Hruns. destruct Hruns as [m Hm].
    exists (Nat.max n m). intros k Hk.
    rewrite chose_impl_eq, (Hn k) by lia.
    apply cls_eqb_neq in Hcls. rewrite Hcls.
    apply Hm. lia.
Qed.

Lemma chose_impl_dispatch_witness :
  (returns get_session_implement thread_world thread_world ThreadBasedSession
   /\ ThreadBasedSession <> CoroutineBasedSession
   /\ returns (chose_impl next_client_event_gen tt) thread_world
        (set_received 1 (set_probed [ThreadBasedSession] thread_world))
        (PyEvent callback_event))
  /\ (returns get_session_implement coroutine_world_replies
        coroutine_world_replies CoroutineBasedSession
      /\ exists c,
           returns (chose_impl next_client_event_gen tt)
             coroutine_world_replies coroutine_world_replies (PyCoroutine c)
           /\ returns (await (PyCoroutine c)) coroutine_world_replies
                (set_received 1
                   (set_probed [CoroutineBasedSession]
                      coroutine_world_replies))
                (PyEvent js_reply)).
Proof.
  assert (Hres : returns get_session_implement thread_world thread_world
                   ThreadBasedSession).
  { exists 0. intros k _. reflexivity. }
  assert (Hneq : ThreadBasedSession <> CoroutineBasedSession)
    by discriminate.
  assert (Hres' : returns get_session_implement coroutine_world_replies
                    coroutine_world_replies CoroutineBasedSession).
  { exists 0. intros k _. reflexivity. }
  split; [split; [exact Hres | split; [exact Hneq |]] | split; [exact Hres' |]].
  - apply (proj2 (chose_impl_dispatch next_client_event_gen tt Hres) Hneq).
    eapply gen_runs_yield.
    + exists 0. intros k _. reflexivity.
    + exists 0. intros k _. reflexivity.
    + apply gen_runs_return. exists 0. intros k _. reflexivity.
  - destruct (proj1 (chose_impl_dispatch next_client_event_gen tt Hres')
                eq_refl) as [c [Hc Hawait]].
    exists c. split; [exact Hc |].
    apply Hawait.
    eapply gen_runs_yield.
    + exists 0. intros k _. reflexivity.
    + exists 0. intros k _. reflexivity.
    + apply gen_runs_return. exists 0. intros k _. reflexivity.
Defined.

(** ** The session context along a call *)

Lemma get_session_implement_probe_find (l : list SessionCls) :
  forall fuel w, exists p,
    get_session_implement_probe l fuel w
    = (set_probed (probed w ++ p) w,
       match find (recognises w) l with
       | Some cls => Ok cls
       | None => Raise SessionNotFoundException
       end).
Proof.
  induction l as [|a l IH]; intros fuel w; simpl.
  - exists []. unfold raise. rewrite app_nil_r. now destruct w.
  - unfold try_except, bind, cls_get_current_session, ret, recognises.
    destruct (current_session_of w a) eqn:Ea; simpl.
    + exists [a]. reflexivity.
    + destruct (IH fuel (set_probed (probed w ++ [a]) w)) as [p Hp].
      exists (a :: p). rewrite Hp. simpl. rewrite <- app_assoc. reflexivity.
Qed.

Lemma get_session_implement_resolved (w : World) :
  exists w1,
    (forall fuel,
        get_session_implement fuel w
        = (w1, match resolved w with
               | Some cls => Ok cls
               | None => Raise SessionNotFoundException
               end))
    /\ same_context w w1
    /\ received w1 = received w
    /\ outbound w1 = outbound w.
Proof.
  destruct (_active_session_cls w) as [|c [|c' l]] eqn:E.
  - exists (script_mode_bootstrapped w). split; [| repeat split].
    + intros fuel. rewrite get_session_implement_eq, E.
      unfold resolved. rewrite E. reflexivity.
    + unfold resolved, script_mode_bootstrapped. simpl. rewrite E. reflexivity.
  - exists w. split; [| repeat split].
    intros fuel. rewrite get_session_implement_eq, E.
    unfold resolved. rewrite E. reflexivity.
  - destruct (get_session_implement_probe_find (c :: c' :: l) 0 w) as [p Hp].
    exists (set_probed (probed w ++ p) w). split; [| repeat split].
    intros fuel. rewrite (get_session_implement_fuel fuel 0).
    rewrite get_session_implement_eq, E, Hp.
    unfold resolved. rewrite E. reflexivity.
Qed.

Lemma get_current_session_resolved (w : World) (cls : SessionCls) (sid : nat) :
  resolved w = Some cls ->
  current_session_of w cls = Some sid ->
  exists w1,
    (forall fuel,
        get_current_session fuel w
        = (w1, Ok {| session_cls := cls; session_id := sid |}))
    /\ same_context w w1
    /\ received w1 = received w
    /\ outbound w1 = outbound w.
Proof.
  intros Hres Hcur.
  destruct (get_session_implement_resolved w)
    as (w0 & Hgsi & (Hr & Hc & Hi) & Hrecv & Hout).
  rewrite Hres in Hgsi.
  exists (set_probed (probed w0 ++ [cls]) w0). split; [| repeat split].
  - intros fuel. unfold get_current_session, bind. rewrite Hgsi.
    unfold cls_get_current_session. rewrite Hc, Hcur. reflexivity.
  - exact Hr.
  - exact Hc.
  - exact Hi.
  - exact Hrecv.
  - exact Hout.
Qed.

Lemma take_client_event_eq (fuel : nat) (w : World) :
  take_client_event fuel w
  = (set_received (S (received w)) w, delivered (inbound w (received w))).
Proof.
  unfold take_client_event. now destruct (inbound w (received w)).
Qed.

(** The first resumption of the generator of [next_client_event] in a
    session that is not coroutine-backed takes one delivery. *)
Lemma next_client_event_gen_start_sync
    (w : World) (cls : SessionCls) (sid : nat) (res : pyobj) :
  resolved w = Some cls ->
  cls <> CoroutineBasedSession ->
  current_session_of w cls = Some sid ->
  exists w1,
    (forall fuel,
        gen_send (next_client_event_gen tt) AtStart res fuel w
        = (w1, match inbound w (received w) with
               | Event ev => Ok (Yield (PyEvent ev) AtYield)
               | Fail e => Raise e
               end))
    /\ same_context w w1
    /\ received w1 = S (received w)
    /\ outbound w1 = outbound w.
Proof.
  intros Hres Hcls Hcur.
  destruct (@get_current_session_resolved w cls sid Hres Hcur)
    as (w0 & Hgcs & (Hr & Hc & Hi) & Hrecv & Hout).
  exists (set_received (S (received w0)) w0). split; [| repeat split].
  - intros fuel. simpl. unfold bind. rewrite Hgcs.
    unfold session_next_client_event. simpl.
    apply cls_eqb_neq in Hcls. rewrite Hcls.
    rewrite take_client_event_eq, Hi, Hrecv.
    destruct (inbound w (received w)); reflexivity.
  - exact Hr.
  - exact Hc.
  - exact Hi.
  - simpl. now rewrite Hrecv.
  - exact Hout.
Qed.

Lemma next_client_event_sync
    (w : World) (cls : SessionCls) (sid : nat) :
  resolved w = Some cls ->
  cls <> CoroutineBasedSession ->
  current_session_of w cls = Some sid ->
  exists w1,
    (forall fuel, 2 <= fuel ->
        next_client_event fuel w = (w1, delivered (inbound w (received w))))
    /\ (forall fuel ev, fuel < 2 ->
          inbound w (received w) = Event ev ->
          snd (next_client_event fuel w) = OutOfFuel)
    /\ same_context w w1
    /\ received w1 = S (received w)
    /\ outbound w1 = outbound w.
Proof.
  intros Hres Hcls Hcur.
  destruct (get_session_implement_resolved w)
    as (w0 & Hgsi & (Hr & Hc & Hi) & Hrecv & Hout).
  rewrite Hres in Hgsi.
  assert (Hres0 : resolved w0 = Some cls) by congruence.
  assert (Hcur0 : current_session_of w0 cls = Some sid) by congruence.
  destruct (@next_client_event_gen_start_sync w0 cls sid PyNone Hres0 Hcls Hcur0)
    as (w1 & Hsend & (Hr1 & Hc1 & Hi1) & Hrecv1 & Hout1).
  rewrite Hi, Hrecv in Hsend.
  assert (Heq : forall fuel,
            next_client_event fuel w
            = run_as_function (next_client_event_gen tt) fuel w0).
  { intros fuel. unfold next_client_event. rewrite chose_impl_eq, Hgsi.
    apply cls_eqb_neq in Hcls. now rewrite Hcls. }
  exists w1. split; [| split; [| repeat split]].
  - intros [|[|fuel]] Hfuel; [lia | lia |].
    rewrite Heq. unfold run_as_function.
    cbn [run_as_function_from]. rewrite Hsend.
    destruct (inbound w (received w)); reflexivity.
  - intros fuel ev Hfuel Hev. rewrite Heq. unfold run_as_function.
    destruct fuel as [|[|fuel]]; [reflexivity | | lia].
    cbn [run_as_function_from]. rewrite Hsend, Hev. reflexivity.
  - congruence.
  - congruence.
  - congruence.
  - congruence.
  - congruence.
Qed.

(** One turn of the loop of [hold] in a session that is not
    coroutine-backed. *)
Lemma hold_gen_send_sync
    (w : World) (cls : SessionCls) (sid : nat) (st : frame1) (res : pyobj) :
  resolved w = Some cls ->
  cls <> CoroutineBasedSession ->
  current_session_of w cls = Some sid ->
  exists w1,
    (forall fuel, 2 <= fuel ->
        gen_send (hold_gen tt) st res fuel w
        = (w1, match inbound w (received w) with
               | Event ev => Ok (Yield (PyEvent ev) AtYield)
               | Fail e =>
                   if is_SessionException e
                   then Ok (Return PyNone)
                   else Raise e
               end))
    /\ (forall fuel ev, fuel < 2 ->
          inbound w (received w) = Event ev ->
          snd (gen_send (hold_gen tt) st res fuel w) = OutOfFuel)
    /\ same_context w w1
    /\ received w1 = S (received w)
    /\ outbound w1 = outbound w.
Proof.
  intros Hres Hcls Hcur.
  destruct (@next_client_event_sync w cls sid Hres Hcls Hcur)
    as (w1 & Hnce & Hlow & Hctx & Hrecv & Hout).
  exists w1. split; [| split; [| repeat split]];
    try apply Hctx; try assumption.
  - intros fuel Hfuel. simpl. unfold try_except, bind.
    rewrite (Hnce fuel Hfuel).
    destruct (inbound w (received w)) as [ev | e]; simpl; [reflexivity |].
    destruct (is_SessionException e); reflexivity.
  - intros fuel ev Hfuel Hev. simpl. unfold try_except, bind.
    specialize (Hlow fuel ev Hfuel Hev).
    destruct (next_client_event fuel w) as [w' o]. simpl in Hlow.
    subst o. reflexivity.
Qed.

(** The loop of [hold], from a point where [n] events and then a session
    condition are still to come. *)
Lemma hold_loop_returns (e : exn) (cls : SessionCls) (sid : nat) (n : nat) :
  is_SessionException e = true ->
  cls <> CoroutineBasedSession ->
  forall (w : World) (st : frame1) (res : pyobj),
    resolved w = Some cls ->
    current_session_of w cls = Some sid ->
    (forall i, i < n -> exists ev, inbound w (received w + i) = Event ev) ->
    inbound w (received w + n) = Fail e ->
    exists w',
      (forall fuel, n + 3 <= fuel ->
          run_as_function_from (gen_send (hold_gen tt)) st res fuel w
          = (w', Ok PyNone))
      /\ same_context w w'
      /\ received w' = received w + n + 1
      /\ outbound w' = outbound w.
Proof.
  intros He Hcls.
  induction n as [|n IH]; intros w st res Hres Hcur Hevs Hfail.
  - destruct (@hold_gen_send_sync w cls sid st res Hres Hcls Hcur)
      as (w1 & Hsend & _ & Hctx & Hrecv & Hout).
    rewrite Nat.add_0_r in Hfail. rewrite Hfail, He in Hsend.
    exists w1. split; [| repeat split]; try apply Hctx; try lia;
      try assumption.
    intros [|fuel] Hfuel; [lia |]. cbn [run_as_function_from].
    rewrite Hsend by lia. reflexivity.
  - destruct (@hold_gen_send_sync w cls sid st res Hres Hcls Hcur)
      as (w1 & Hsend & _ & (Hr & Hc & Hi) & Hrecv & Hout).
    destruct (Hevs 0 (Nat.lt_0_succ n)) as [ev Hev].
    rewrite Nat.add_0_r in Hev. rewrite Hev in Hsend.
    destruct (IH w1 AtYield (PyEvent ev)) as (w' & Hloop & (Hr' & Hc' & Hi') & Hrecv' & Hout').
    + congruence.
    + congruence.
    + intros i Hi0. rewrite Hi, Hrecv.
      destruct (Hevs (S i)) as [ev' Hev']; [lia |].
      exists ev'. rewrite <- Hev'. f_equal. lia.
    + rewrite Hi, Hrecv. rewrite <- Hfail. f_equal. lia.
    + exists w'. split; [| repeat split]; try congruence; try lia.
      intros [|fuel] Hfuel; [lia |]. cbn [run_as_function_from].
      rewrite Hsend by lia. apply Hloop. lia.
Qed.

(** While every delivery is an event the loop of [hold] goes on: with no
    amount of fuel does it return or raise. *)
Lemma hold_loop_goes_on (cls : SessionCls) (sid : nat) (fuel : nat) :
  cls <> CoroutineBasedSession ->
  forall (w : World) (st : frame1) (res : pyobj),
    resolved w = Some cls ->
    current_session_of w cls = Some sid ->
    (forall i, exists ev, inbound w (received w + i) = Event ev) ->
    snd (run_as_function_from (gen_send (hold_gen tt)) st res fuel w)
    = OutOfFuel.
Proof.
  intros Hcls.
  induction fuel as [|fuel IH]; intros w st res Hres Hcur Hevs.
  - reflexivity.
  - destruct (@hold_gen_send_sync w cls sid st res Hres Hcls Hcur)
      as (w1 & Hsend & Hlow & (Hr & Hc & Hi) & Hrecv & Hout).
    destruct (Hevs 0) as [ev Hev]. rewrite Nat.add_0_r in Hev.
    cbn [run_as_function_from].
    destruct (Nat.lt_ge_cases fuel 2) as [Hlt | Hge].
    + specialize (Hlow fuel ev Hlt Hev).
      destruct (gen_send (hold_gen tt) st res fuel w) as [w' o].
      simpl in Hlow. subst o. reflexivity.
    + rewrite (Hsend fuel Hge), Hev.
      apply IH; try congruence.
      intros i. rewrite Hi, Hrecv.
      destruct (Hevs (S i)) as [ev' Hev'].
      exists ev'. rewrite <- Hev'. f_equal. lia.
Qed.

Lemma next_client_event_coroutine (w : World) :
  resolved w = Some CoroutineBasedSession ->
  exists w0,
    (forall fuel,
        next_client_event fuel w
        = (w0, Ok (to_coroutine (next_client_event_gen tt))))
    /\ same_context w w0
    /\ received w0 = received w
    /\ outbound w0 = outbound w.
Proof.
  intros Hres.
  destruct (get_session_implement_resolved w)
    as (w0 & Hgsi & Hctx & Hrecv & Hout).
  rewrite Hres in Hgsi.
  exists w0. split; [| repeat split]; try apply Hctx; try assumption.
  intros fuel. unfold next_client_event. rewrite chose_impl_eq, Hgsi.
  reflexivity.
Qed.

Lemma await_next_client_event_coroutine (w : World) (sid : nat) :
  resolved w = Some CoroutineBasedSession ->
  current_session_of w CoroutineBasedSession = Some sid ->
  exists w1,
    (forall fuel, 2 <= fuel ->
        await (to_coroutine (next_client_event_gen tt)) fuel w
        = (w1, delivered (inbound w (received w))))
    /\ same_context w w1
    /\ received w1 = S (received w)
    /\ outbound w1 = outbound w.
Proof.
  intros Hres Hcur.
  destruct (@get_current_session_resolved w _ sid Hres Hcur)
    as (w0 & Hgcs & (Hr & Hc & Hi) & Hrecv & Hout).
  exists (set_received (S (received w0)) w0). split; [| repeat split].
  - intros [|[|fuel]] Hfuel; [lia | lia |].
    simpl. unfold bind. rewrite Hgcs. simpl.
    rewrite take_client_event_eq, Hi, Hrecv.
    destruct (inbound w (received w)); reflexivity.
  - exact Hr.
  - exact Hc.
  - exact Hi.
  - simpl. now rewrite Hrecv.
  - exact Hout.
Qed.

Section EvalJsFacts.

Variable repr : string -> string.

Lemma eval_js_gen_at_yield (expression_ : string)
    (args : list (string * data)) (ev : client_event) (fuel : nat)
    (w : World) :
  gen_send (eval_js_gen repr (expression_, args)) AtYield (PyEvent ev) fuel w
  = (w, if ev_event ev =? "js_yield"
        then Ok (Return (PyData (ev_data ev)))
        else Raise (AssertionError
               ("Internal Error, please report this bug on "
                ++ "https://github.com/wang0618/PyWebIO/issues"))).
Proof.
  simpl. unfold bind, ret, raise. simpl.
  destruct (ev_event ev =? "js_yield"); reflexivity.
Qed.

End EvalJsFacts.

Lemma completed_awaits (m : M pyobj) (fuel : nat) (w w0 : World)
    (c : nat -> World -> World * outcome pyobj) :
  m fuel w = (w0, Ok (PyCoroutine c)) ->
  completed m fuel w = c fuel w0.
Proof. intros Hm. unfold completed, bind. rewrite Hm. reflexivity. Qed.

Lemma completed_data (m : M pyobj) (fuel : nat) (w w0 : World) (d : data) :
  m fuel w = (w0, Ok (PyData d)) ->
  completed m fuel w = (w0, Ok (PyData d)).
Proof. intros Hm. unfold completed, bind. rewrite Hm. reflexivity. Qed.

Lemma completed_raise (m : M pyobj) (fuel : nat) (w w0 : World) (e : exn) :
  m fuel w = (w0, Raise e) ->
  completed m fuel w = (w0, Raise e).
Proof. intros Hm. unfold completed, bind. rewrite Hm. reflexivity. Qed.

(** ** Holding the session *)

(** X21: when [hold] is dispatched synchronously, that is in a session
    whose resolved implement is not the coroutine-backed one, then for every
    sequence of inbound events followed by a session condition [hold] takes
    the events and the condition from the suspension primitive, one call
    each, sends nothing, and returns [None] right after the failure without
    raising; and while every delivery is an event it does not return. *)
Theorem hold_until_closed :
  forall (w : World) (cls : SessionCls) (sid : nat),
    resolved w = Some cls ->
    cls <> CoroutineBasedSession ->
    current_session_of w cls = Some sid ->
    (forall (evs : list client_event) (e : exn),
        (forall i ev, nth_error evs i = Some ev ->
                      inbound w (received w + i) = Event ev) ->
        inbound w (received w + List.length evs) = Fail e ->
        is_SessionException e = true ->
        exists w',
          returns hold w w' PyNone
          /\ received w' = received w + List.length evs + 1
          /\ outbound w' = outbound w)
    /\ ((forall i, exists ev, inbound w (received w + i) = Event ev) ->
        forall fuel, snd (hold fuel w) = OutOfFuel).
Proof.
  intros w cls sid Hres Hcls Hcur.
  destruct (get_session_implement_resolved w)
    as (w0 & Hgsi & (Hr & Hc & Hi) & Hrecv & Hout).
  rewrite Hres in Hgsi.
  assert (Hhold : forall fuel,
            hold fuel w
            = run_as_function_from (gen_send (hold_gen tt)) AtStart PyNone
                fuel w0).
  { intros fuel. unfold hold. rewrite chose_impl_eq, Hgsi.
    apply cls_eqb_neq in Hcls. now rewrite Hcls. }
  split.
  - intros evs e Hevs Hfail He.
    destruct (@hold_loop_returns e cls sid (List.length evs) He Hcls
                w0 AtStart PyNone)
      as (w' & Hloop & _ & Hrecv' & Hout'); try congruence.
    + intros i Hlt. rewrite Hi, Hrecv.
      destruct (nth_error evs i) as [ev |] eqn:Hnth.
      * exists ev. now apply Hevs.
      * apply nth_error_None in Hnth. lia.
    + exists w'. split; [| split]; try congruence.
      exists (List.length evs + 3). intros k Hk.
      rewrite Hhold. now apply Hloop.
  - intros Hevs fuel. rewrite Hhold.
    apply (@hold_loop_goes_on cls sid fuel Hcls); try congruence.
    intros i. rewrite Hi, Hrecv. apply Hevs.
Qed.

Lemma hold_until_closed_witness :
  resolved thread_world = Some ThreadBasedSession
  /\ is_SessionException SessionClosedException = true
  /\ exists w',
       returns hold thread_world w' PyNone
       /\ received w' = 3
       /\ outbound w' = [].
Proof.
  split; [reflexivity | split; [reflexivity |]].
  apply (proj1 (@hold_until_closed thread_world ThreadBasedSession 1
                  eq_refl ltac:(discriminate) eq_refl)
           [callback_event; js_reply] SessionClosedException).
  - intros [|[|[|i]]] ev Hnth; simpl in Hnth;
      try discriminate; injection Hnth as <-; reflexivity.
  - reflexivity.
  - reflexivity.
Defined.

(** C7: [hold] under the coroutine-backed implement, with two events and
    then [SessionClosedException] inbound: the call takes nothing from the
    primitive and returns an awaitable at once, and awaiting it takes the
    two events and the failure and then raises [SessionClosedException] to
    its caller instead of returning [None]; the failure arises where the
    driver awaits the yielded awaitable, which the [try] of [hold] does not
    enclose. *)
Lemma hold_coroutine_backed_raises :
  resolved coroutine_world = Some CoroutineBasedSession
  /\ inbound coroutine_world 0 = Event callback_event
  /\ inbound coroutine_world 1 = Event js_reply
  /\ inbound coroutine_world 2 = Fail SessionClosedException
  /\ returns hold coroutine_world coroutine_world (to_coroutine (hold_gen tt))
  /\ raises (completed hold) coroutine_world
       (set_received 3
          (set_probed [CoroutineBasedSession; CoroutineBasedSession;
                       CoroutineBasedSession] coroutine_world))
       SessionClosedException.
Proof.
  repeat split.
  - exists 0. intros k _. reflexivity.
  - exists 5. intros [|[|[|[|[|k]]]]] Hk; try lia. reflexivity.
Qed.

(** ** More on the registry *)

Section RegistryFacts.

Context {target : Type} `{TaskShape target}.

(** Registration changes the registry alone, by at most one implement put
    at its end, and that implement is never script mode. *)
Lemma register_appends (target_func : target) (fuel : nat) (w : World) :
  exists suffix,
    fst (register_session_implement_for_target target_func fuel w)
    = set_active (_active_session_cls w ++ suffix) w
    /\ List.length suffix <= 1
    /\ ~ In ScriptModeSession suffix.
Proof.
  rewrite register_session_implement_for_target_eq.
  destruct (cls_in ScriptModeSession (_active_session_cls w)).
  - exists []. rewrite app_nil_r. simpl. repeat split; [now destruct w | lia | tauto].
  - destruct (cls_in _ (_active_session_cls w)).
    + exists []. rewrite app_nil_r. simpl.
      repeat split; [now destruct w | lia | tauto].
    + eexists [_]. simpl. repeat split; [lia |].
      intros [Heq | []]. destruct (_ || _); discriminate.
Qed.

Lemma get_session_implement_servers (fuel : nat) (w : World) :
  script_mode_servers (fst (get_session_implement fuel w))
  = match _active_session_cls w with
    | [] => S (script_mode_servers w)
    | _ => script_mode_servers w
    end.
Proof.
  rewrite get_session_implement_eq.
  destruct (_active_session_cls w) as [|c [|c' l]] eqn:E; try reflexivity.
  destruct (get_session_implement_probe_frame (c :: c' :: l) fuel w)
    as [p Hp].
  rewrite Hp. reflexivity.
Qed.

(** X1: over any sequence of registration and resolution calls the registry
    only grows at its end: what was registered stays registered, in the
    order of first registration. *)
Theorem registry_append_only :
  forall (calls : list (registry_call target)) (w : World),
    exists suffix,
      _active_session_cls (run_calls calls w)
      = _active_session_cls w ++ suffix.
Proof.
  induction calls as [|[f |] calls IH]; intros w; simpl.
  - exists []. now rewrite app_nil_r.
  - destruct (register_appends f 0 w) as (s1 & Hs1 & _ & _).
    destruct (IH (fst (register_session_implement_for_target f 0 w)))
      as [s2 Hs2].
    exists (s1 ++ s2). rewrite Hs2, Hs1. simpl. now rewrite app_assoc.
  - destruct (IH (fst (get_session_implement 0 w))) as [s2 Hs2].
    rewrite Hs2, get_session_implement_registry.
    destruct (_active_session_cls w).
    + exists ([ScriptModeSession] ++ s2). reflexivity.
    + exists s2. reflexivity.
Qed.

(** The server count is that of the start plus one exactly when script mode
    is registered. *)
Lemma run_calls_servers (calls : list (registry_call target)) :
  forall (w : World) (n : nat),
    registry_ok (_active_session_cls w) ->
    script_mode_servers w
    = n + (if cls_in ScriptModeSession (_active_session_cls w) then 1 else 0) ->
    script_mode_servers (run_calls calls w)
    = n + (if cls_in ScriptModeSession
                (_active_session_cls (run_calls calls w)) then 1 else 0).
Proof.
  induction calls as [|[f |] calls IH]; intros w n Hok Hn; simpl.
  - exact Hn.
  - apply IH; [now apply register_preserves_registry_ok |].
    destruct (register_appends f 0 w) as (s1 & Hs1 & _ & Hns).
    rewrite Hs1. simpl. rewrite Hn. f_equal.
    destruct (cls_in ScriptModeSession (_active_session_cls w)) eqn:E.
    + apply cls_in_In in E.
      assert (E' : cls_in ScriptModeSession (_active_session_cls w ++ s1)
                   = true)
        by (apply cls_in_In, in_or_app; now left).
      now rewrite E'.
    + apply cls_in_not_In in E.
      assert (E' : cls_in ScriptModeSession (_active_session_cls w ++ s1)
                   = false).
      { apply cls_in_not_In. intros Hin. apply in_app_or in Hin. tauto. }
      now rewrite E'.
  - apply IH; [now apply get_session_implement_preserves_registry_ok |].
    rewrite get_session_implement_servers, get_session_implement_registry.
    destruct (_active_session_cls w) eqn:E.
    + simpl in Hn. simpl. lia.
    + exact Hn.
Qed.

(** X2: from the empty registry, whatever registration and resolution calls
    follow, the script-mode server is started at most once, and it has been
    started exactly when script mode is in the registry. *)
Theorem script_mode_server_started_at_most_once :
  forall (calls : list (registry_call target)) (w : World),
    _active_session_cls w = [] ->
    (In ScriptModeSession (_active_session_cls (run_calls calls w)) ->
     script_mode_servers (run_calls calls w) = S (script_mode_servers w))
    /\ (~ In ScriptModeSession (_active_session_cls (run_calls calls w)) ->
        script_mode_servers (run_calls calls w) = script_mode_servers w).
Proof.
  intros calls w Hempty.
  assert (Hn : script_mode_servers (run_calls calls w)
               = script_mode_servers w
                 + (if cls_in ScriptModeSession
                         (_active_session_cls (run_calls calls w))
                    then 1 else 0)).
  { apply run_calls_servers.
    - rewrite Hempty. split; [constructor | intros []].
    - rewrite Hempty. simpl. lia. }
  split; intros Hin.
  - apply cls_in_In in Hin. rewrite Hin in Hn. lia.
  - apply cls_in_not_In in Hin. rewrite Hin in Hn. lia.
Qed.

(** X3: once script mode is registered it stays the only implement: every
    later resolution returns it and every later registration raises
    [RuntimeError]. *)
Theorem script_mode_is_final :
  forall (calls : list (registry_call target)) (w : World)
         (target_func : target) (fuel : nat),
    _active_session_cls w = [ScriptModeSession] ->
    _active_session_cls (run_calls calls w) = [ScriptModeSession]
    /\ snd (get_session_implement fuel (run_calls calls w))
       = Ok ScriptModeSession
    /\ snd (register_session_implement_for_target target_func fuel
              (run_calls calls w))
       = Raise (RuntimeError "Already in script mode, can't start server").
Proof.
  intros calls w target_func fuel Hscript.
  assert (Hreg : _active_session_cls (run_calls calls w)
                 = [ScriptModeSession]).
  { revert w Hscript.
    induction calls as [|[f |] calls IH]; intros w Hscript; simpl.
    - exact Hscript.
    - apply IH. rewrite register_session_implement_for_target_eq, Hscript.
      simpl. exact Hscript.
    - apply IH. rewrite get_session_implement_registry, Hscript.
      reflexivity. }
  split; [exact Hreg | split].
  - rewrite get_session_implement_eq, Hreg. reflexivity.
  - rewrite register_session_implement_for_target_eq, Hreg. reflexivity.
Qed.

(** X4: from the empty registry the registry never holds more than two
    implements. *)
Theorem registry_at_most_two :
  forall (calls : list (registry_call target)) (w : World),
    _active_session_cls w = [] ->
    List.length (_active_session_cls (run_calls calls w)) <= 2.
Proof.
  intros calls w Hempty.
  assert (Hok : registry_ok (_active_session_cls (run_calls calls w))).
  { assert (Hok0 : registry_ok (_active_session_cls w))
      by (rewrite Hempty; split; [constructor | intros []]).
    clear Hempty. revert w Hok0.
    induction calls as [|[f |] calls IH]; intros w Hok0; simpl.
    - assumption.
    - apply IH. now apply register_preserves_registry_ok.
    - apply IH. now apply get_session_implement_preserves_registry_ok. }
  destruct Hok as [Hnd Hscript].
  destruct (cls_in ScriptModeSession (_active_session_cls (run_calls calls w)))
    eqn:E.
  - apply cls_in_In in E. rewrite (Hscript E). simpl. lia.
  - apply cls_in_not_In in E.
    apply (@NoDup_incl_length _ _ [CoroutineBasedSession; ThreadBasedSession])
      in Hnd; [exact Hnd |].
    intros c Hc. destruct c; simpl; auto; contradiction.
Qed.

End RegistryFacts.

(** X5: resolution is stable: a second resolution comes to what the first
    came to and leaves the registry and the server count alone. *)
Theorem get_session_implement_stable :
  forall (fuel fuel' : nat) (w : World),
    let w1 := fst (get_session_implement fuel w) in
    snd (get_session_implement fuel' w1) = snd (get_session_implement fuel w)
    /\ _active_session_cls (fst (get_session_implement fuel' w1))
       = _active_session_cls w1
    /\ script_mode_servers (fst (get_session_implement fuel' w1))
       = script_mode_servers w1.
Proof.
  intros fuel fuel' w w1. subst w1.
  destruct (get_session_implement_resolved w) as (w0 & Hgsi & (Hr & _) & _).
  rewrite (Hgsi fuel). simpl.
  destruct (get_session_implement_resolved w0) as (w0' & Hgsi' & _).
  rewrite (Hgsi' fuel'), Hr. simpl.
  split; [reflexivity |].
  assert (Hne : _active_session_cls w0 <> []).
  { pose proof (get_session_implement_registry fuel w) as Hreg.
    rewrite (Hgsi fuel) in Hreg. simpl in Hreg. rewrite Hreg.
    destruct (_active_session_cls w); discriminate. }
  pose proof (get_session_implement_registry fuel' w0) as Hreg'.
  pose proof (get_session_implement_servers fuel' w0) as Hsrv'.
  rewrite (Hgsi' fuel') in Hreg', Hsrv'. simpl in Hreg', Hsrv'.
  destruct (_active_session_cls w0); [congruence |].
  split; assumption.
Qed.

(** ** More on the context resolver *)

(** X6: [get_current_session] returns a session exactly when resolution
    returns an implement that knows the caller, and then it is that
    implement's session; in every other case it raises
    [SessionNotFoundException].  With two or more implements registered it
    returns whenever resolution does; with a single one resolution returns
    that implement even where no session is found. *)
Theorem get_current_session_found_iff :
  forall (fuel : nat) (w : World),
    (forall s,
        snd (get_current_session fuel w) = Ok s
        <-> snd (get_session_implement fuel w) = Ok (session_cls s)
            /\ current_session_of w (session_cls s) = Some (session_id s))
    /\ ((forall s, snd (get_current_session fuel w) <> Ok s) ->
        snd (get_current_session fuel w) = Raise SessionNotFoundException)
    /\ (1 < List.length (_active_session_cls w) ->
        forall cls,
          snd (get_session_implement fuel w) = Ok cls ->
          exists s, snd (get_current_session fuel w) = Ok s
                    /\ session_cls s = cls)
    /\ (forall cls,
          _active_session_cls w = [cls] ->
          get_session_implement fuel w = (w, Ok cls)).
Proof.
  intros fuel w.
  destruct (get_session_implement_resolved w)
    as (w0 & Hgsi & (Hr & Hc & Hi) & Hrecv & Hout).
  assert (Hgcs : snd (get_current_session fuel w)
                 = match resolved w with
                   | Some cls =>
                       match current_session_of w cls with
                       | Some sid =>
                           Ok {| session_cls := cls; session_id := sid |}
                       | None => Raise SessionNotFoundException
                       end
                   | None => Raise SessionNotFoundException
                   end).
  { unfold get_current_session, bind. rewrite (Hgsi fuel).
    destruct (resolved w) as [cls |]; [| reflexivity].
    unfold cls_get_current_session. rewrite Hc.
    destruct (current_session_of w cls); reflexivity. }
  rewrite Hgcs, (Hgsi fuel). simpl.
  split; [| split; [| split]].
  - intros [cls sid]. simpl.
    destruct (resolved w) as [cls' |].
    + destruct (current_session_of w cls') as [sid' |] eqn:E; split.
      * intros Heq. injection Heq as <- <-. now split.
      * intros [Heq Hcur]. injection Heq as <-. congruence.
      * discriminate.
      * intros [Heq Hcur]. injection Heq as <-. congruence.
    + split; [discriminate | intros [Heq _]; discriminate].
  - intros Hnone.
    destruct (resolved w) as [cls' |]; [| reflexivity].
    destruct (current_session_of w cls') as [sid' |]; [| reflexivity].
    exfalso. now apply (Hnone {| session_cls := cls'; session_id := sid' |}).
  - intros Hlen cls Hcls.
    assert (Hfind : find (recognises w) (_active_session_cls w) = Some cls).
    { unfold resolved in Hcls.
      destruct (_active_session_cls w) as [|c [|c' l]]; simpl in Hlen;
        [lia | lia |].
      destruct (find _ _); congruence. }
    assert (Hres : resolved w = Some cls)
      by (destruct (resolved w); congruence).
    apply find_some in Hfind. destruct Hfind as [_ Hrec].
    unfold recognises in Hrec. rewrite Hres.
    destruct (current_session_of w cls) as [sid |]; [| discriminate].
    eexists. split; reflexivity.
  - intros cls Hone.
    rewrite <- (Hgsi fuel), get_session_implement_eq, Hone. reflexivity.
Qed.

Lemma get_session_implement_stray (fuel : nat) (w : World) :
  1 < List.length (_active_session_cls w) ->
  (forall c, In c (_active_session_cls w) -> current_session_of w c = None) ->
  get_session_implement fuel w
  = (set_probed (probed w ++ _active_session_cls w) w,
     Raise SessionNotFoundException).
Proof.
  intros Hlen Hnone. rewrite get_session_implement_eq.
  destruct (_active_session_cls w) as [|c [|c' l]] eqn:E; simpl in Hlen;
    [lia | lia |].
  rewrite <- E in *. now apply get_session_implement_probe_none.
Qed.

Lemma check_session_impl_eq (session_type : SessionCls) (A B : Type)
    (func : pyfunc A B) (args : A) (fuel : nat) (w : World) :
  func_call (check_session_impl session_type func) args fuel w
  = match get_session_implement fuel w with
    | (w1, Ok curr_impl) =>
        if issubclass curr_impl session_type
        then func_call func args fuel w1
        else (w1, Raise (RuntimeError
               ("Only can invoke `" ++ func_name func ++ "` in "
                ++ cls_name session_type ++ " context."
                ++ " You are now in " ++ cls_name curr_impl ++ " context")))
    | (w1, Raise e) => (w1, Raise e)
    | (w1, OutOfFuel) => (w1, OutOfFuel)
    end.
Proof.
  simpl. unfold bind.
  destruct (get_session_implement fuel w) as [w1 [curr | e |]];
    [| reflexivity | reflexivity].
  destruct (issubclass curr session_type); reflexivity.
Qed.

(** X7: where two or more implements are registered and none knows the
    caller, every dispatched function ([next_client_event], [hold],
    [eval_js]) and every function under the capability check raises
    [SessionNotFoundException] from the resolution itself: nothing is sent,
    nothing is taken from the inbound traffic, and neither the generator nor
    the wrapped function is run. *)
Theorem stray_caller_is_refused :
  forall (fuel : nat) (w : World),
    1 < List.length (_active_session_cls w) ->
    (forall c, In c (_active_session_cls w) -> current_session_of w c = None) ->
    let w1 := set_probed (probed w ++ _active_session_cls w) w in
    (forall (A : Type) (gen_func : A -> generator) (args : A),
        chose_impl gen_func args fuel w = (w1, Raise SessionNotFoundException))
    /\ next_client_event fuel w = (w1, Raise SessionNotFoundException)
    /\ hold fuel w = (w1, Raise SessionNotFoundException)
    /\ (forall repr expression_ args,
          eval_js repr expression_ args fuel w
          = (w1, Raise SessionNotFoundException))
    /\ (forall (session_type : SessionCls) (A B : Type) (func : pyfunc A B)
               (args : A),
          func_call (check_session_impl session_type func) args fuel w
          = (w1, Raise SessionNotFoundException)).
Proof.
  intros fuel w Hlen Hnone w1.
  pose proof (get_session_implement_stray fuel w Hlen Hnone) as Hgsi.
  assert (Hchose : forall (A : Type) (gen_func : A -> generator) (args : A),
             chose_impl gen_func args fuel w
             = (w1, Raise SessionNotFoundException)).
  { intros A gen_func args. now rewrite chose_impl_eq, Hgsi. }
  split; [exact Hchose | split; [apply Hchose | split; [apply Hchose | split]]].
  - intros repr expression_ args. apply Hchose.
  - intros session_type A B func args.
    now rewrite check_session_impl_eq, Hgsi.
Qed.

(** ** More on the capability check *)

Section KindSpecificFacts.

Variable session_run_async : Session -> pyobj -> M pyobj.
Variable session_register_thread : Session -> pyobj -> M pyobj.

(** X8: [run_async] raises the [RuntimeError] of the capability check exactly
    when the resolved implement is not the coroutine-backed one, thread-backed
    and script mode alike; under the coroutine-backed implement it hands the
    coroutine to [run_async] of the current session. *)
Theorem run_async_only_in_coroutine_session :
  forall (coro_obj : pyobj) (fuel : nat) (w w1 : World)
         (curr_impl : SessionCls),
    get_session_implement fuel w = (w1, Ok curr_impl) ->
    (curr_impl <> CoroutineBasedSession ->
     func_call (run_async session_run_async) coro_obj fuel w
     = (w1, Raise (RuntimeError
          ("Only can invoke `run_async` in CoroutineBasedSession context."
           ++ " You are now in " ++ cls_name curr_impl ++ " context"))))
    /\ (curr_impl = CoroutineBasedSession ->
        func_call (run_async session_run_async) coro_obj fuel w
        = (s <- get_current_session ;; session_run_async s coro_obj) fuel w1).
Proof.
  intros coro_obj fuel w w1 curr_impl Hgsi.
  unfold run_async. rewrite check_session_impl_eq, Hgsi.
  split.
  - intros Hne. destruct curr_impl; [congruence | reflexivity | reflexivity].
  - intros ->. reflexivity.
Qed.

(** X9: [register_thread] raises the [RuntimeError] of the capability check
    exactly when the resolved implement is the coroutine-backed one; under
    the thread-backed implement and in script mode it hands the thread to
    [register_thread] of the current session. *)
Theorem register_thread_refused_only_in_coroutine_session :
  forall (thread : pyobj) (fuel : nat) (w w1 : World)
         (curr_impl : SessionCls),
    get_session_implement fuel w = (w1, Ok curr_impl) ->
    (curr_impl = CoroutineBasedSession ->
     func_call (register_thread session_register_thread) thread fuel w
     = (w1, Raise (RuntimeError
          ("Only can invoke `register_thread` in ThreadBasedSession context."
           ++ " You are now in CoroutineBasedSession context"))))
    /\ (curr_impl <> CoroutineBasedSession ->
        func_call (register_thread session_register_thread) thread fuel w
        = (s <- get_current_session ;; session_register_thread s thread)
            fuel w1).
Proof.
  intros thread fuel w w1 curr_impl Hgsi.
  unfold register_thread. rewrite check_session_impl_eq, Hgsi.
  split.
  - intros ->. reflexivity.
  - intros Hne. destruct curr_impl; [congruence | reflexivity | reflexivity].
Qed.

End KindSpecificFacts.

Section SessionMethodFacts.

Variable callable : Type.
Variable session_defer_call : Session -> callable -> M unit.
Variable session_run_asyncio_coroutine : Session -> pyobj -> M pyobj.

(** X10: the capability check of [run_asyncio_coroutine] runs when the
    function is called, not when its result is awaited: outside a
    coroutine-backed session the call itself raises the [RuntimeError];
    inside one the call returns an awaitable and has not asked for the
    current session, and awaiting that awaitable gets the current session,
    calls its [run_asyncio_coroutine] and awaits what that returns. *)
Theorem run_asyncio_coroutine_checks_at_call :
  forall (coro_obj : pyobj) (fuel : nat) (w w1 : World)
         (curr_impl : SessionCls),
    get_session_implement fuel w = (w1, Ok curr_impl) ->
    (curr_impl <> CoroutineBasedSession ->
     func_call (run_asyncio_coroutine session_run_asyncio_coroutine)
       coro_obj fuel w
     = (w1, Raise (RuntimeError
          ("Only can invoke `run_asyncio_coroutine` in "
           ++ "CoroutineBasedSession context."
           ++ " You are now in " ++ cls_name curr_impl ++ " context"))))
    /\ (curr_impl = CoroutineBasedSession ->
        exists c,
          func_call (run_asyncio_coroutine session_run_asyncio_coroutine)
            coro_obj fuel w
          = (w1, Ok (PyCoroutine c))
          /\ forall fuel' w',
               await (PyCoroutine c) fuel' w'
               = (s <- get_current_session ;;
                  a <- session_run_asyncio_coroutine s coro_obj ;;
                  await a) fuel' w').
Proof.
  intros coro_obj fuel w w1 curr_impl Hgsi.
  unfold run_asyncio_coroutine. rewrite check_session_impl_eq, Hgsi.
  split.
  - intros Hne. destruct curr_impl; [congruence | reflexivity | reflexivity].
  - intros ->. eexists. split; reflexivity.
Qed.

(** X11: in a session, when the session's [defer_call] returns, [defer_call]
    returns the very callable it was given, so that it can be used as a
    decorator; where no session is found it raises
    [SessionNotFoundException] and the session method is not called. *)
Theorem defer_call_returns_func :
  forall (func : callable) (w : World),
    (forall cls sid,
        resolved w = Some cls ->
        current_session_of w cls = Some sid ->
        (forall s fuel w0, exists w', session_defer_call s func fuel w0
                                      = (w', Ok tt)) ->
        forall fuel,
          snd (defer_call session_defer_call func fuel w) = Ok func)
    /\ (forall fuel,
          snd (get_current_session fuel w) = Raise SessionNotFoundException ->
          defer_call session_defer_call func fuel w
          = (fst (get_current_session fuel w),
             Raise SessionNotFoundException)).
Proof.
  intros func w. split.
  - intros cls sid Hres Hcur Hmeth fuel.
    destruct (@get_current_session_resolved w cls sid Hres Hcur)
      as (w1 & Hgcs & _).
    unfold defer_call, bind. rewrite Hgcs.
    destruct (Hmeth {| session_cls := cls; session_id := sid |} fuel w1)
      as [w' Hw'].
    rewrite Hw'. reflexivity.
  - intros fuel Hraise. unfold defer_call, bind.
    destruct (get_current_session fuel w) as [w1 o]. simpl in *.
    subst o. reflexivity.
Qed.

End SessionMethodFacts.

(** ** More on the suspension primitive *)

(** X13: in a session, [next_client_event] called and, under the
    coroutine-backed implement, awaited takes exactly one delivery from the
    inbound traffic and sends nothing: it returns the event when the
    delivery is one, and raises the failure the delivery carries
    otherwise. *)
Theorem next_client_event_takes_one :
  forall (w : World) (cls : SessionCls) (sid : nat),
    resolved w = Some cls ->
    current_session_of w cls = Some sid ->
    exists w',
      received w' = S (received w)
      /\ outbound w' = outbound w
      /\ (forall ev, inbound w (received w) = Event ev ->
            returns (completed next_client_event) w w' (PyEvent ev))
      /\ (forall e, inbound w (received w) = Fail e ->
            raises (completed next_client_event) w w' e).
Proof.
  intros w cls sid Hres Hcur.
  assert (Hrun : exists w',
            (forall fuel, 2 <= fuel ->
                completed next_client_event fuel w
                = (w', delivered (inbound w (received w))))
            /\ received w' = S (received w)
            /\ outbound w' = outbound w).
  { destruct (cls_eqb cls CoroutineBasedSession) eqn:Ecls.
    - apply cls_eqb_eq in Ecls. subst cls.
      destruct (next_client_event_coroutine w Hres)
        as (w0 & Hnce & (Hr & Hc & Hi) & Hrecv & Hout).
      destruct (@await_next_client_event_coroutine w0 sid)
        as (w1 & Hawait & _ & Hrecv1 & Hout1); try congruence.
      exists w1. split; [| split; congruence].
      intros fuel Hfuel.
      rewrite (@completed_awaits _ _ _ w0
                 (to_coroutine_from (gen_send (next_client_event_gen tt))
                    AtStart PyNone)) by apply Hnce.
      change (to_coroutine_from (gen_send (next_client_event_gen tt))
                AtStart PyNone fuel w0)
        with (await (to_coroutine (next_client_event_gen tt)) fuel w0).
      rewrite (Hawait fuel Hfuel), Hi, Hrecv. reflexivity.
    - apply cls_eqb_neq in Ecls.
      destruct (@next_client_event_sync w cls sid Hres Ecls Hcur)
        as (w1 & Hnce & _ & _ & Hrecv1 & Hout1).
      exists w1. split; [| split; assumption].
      intros fuel Hfuel. specialize (Hnce fuel Hfuel).
      unfold completed, bind. rewrite Hnce.
      destruct (inbound w (received w)); reflexivity. }
  destruct Hrun as (w' & Hrun & Hrecv & Hout).
  exists w'. split; [exact Hrecv | split; [exact Hout | split]].
  - intros ev Hev. exists 2. intros k Hk. rewrite (Hrun k Hk), Hev.
    reflexivity.
  - intros e He. exists 2. intros k Hk. rewrite (Hrun k Hk), He.
    reflexivity.
Qed.

(** The call of [next_client_event] where the single registered implement,
    not the coroutine-backed one, knows no session of the caller. *)
Lemma next_client_event_no_session (w : World) (cls : SessionCls) :
  resolved w = Some cls ->
  cls <> CoroutineBasedSession ->
  current_session_of w cls = None ->
  exists w1,
    (forall fuel, 1 <= fuel ->
        next_client_event fuel w = (w1, Raise SessionNotFoundException))
    /\ same_context w w1
    /\ received w1 = received w
    /\ outbound w1 = outbound w.
Proof.
  intros Hres Hcls Hcur.
  destruct (get_session_implement_resolved w)
    as (w0 & Hgsi & (Hr & Hc & Hi) & Hrecv & Hout).
  rewrite Hres in Hgsi.
  destruct (get_session_implement_resolved w0)
    as (w0' & Hgsi' & (Hr' & Hc' & Hi') & Hrecv' & Hout').
  rewrite Hr, Hres in Hgsi'.
  exists (set_probed (probed w0' ++ [cls]) w0'). split; [| repeat split].
  - intros [|fuel] Hfuel; [lia |].
    unfold next_client_event. rewrite chose_impl_eq, Hgsi.
    apply cls_eqb_neq in Hcls. rewrite Hcls.
    unfold run_as_function. cbn [run_as_function_from].
    simpl gen_send. unfold bind at 1. unfold get_current_session.
    unfold bind at 1. rewrite Hgsi'.
    unfold cls_get_current_session. rewrite Hc', Hc, Hcur. reflexivity.
  - change (resolved w0' = resolved w). congruence.
  - simpl. congruence.
  - simpl. congruence.
  - simpl. congruence.
  - simpl. congruence.
Qed.

(** ** More on holding the session *)

(** X14: [hold] called synchronously where the resolved implement knows no
    session of the caller returns [None] at once: the
    [SessionNotFoundException] of the first [next_client_event] ends the
    loop, nothing is taken from the inbound traffic and nothing is sent. *)
Theorem hold_outside_session_returns :
  forall (w : World) (cls : SessionCls),
    resolved w = Some cls ->
    cls <> CoroutineBasedSession ->
    current_session_of w cls = None ->
    exists w',
      returns hold w w' PyNone
      /\ received w' = received w
      /\ outbound w' = outbound w.
Proof.
  intros w cls Hres Hcls Hcur.
  destruct (get_session_implement_resolved w)
    as (w0 & Hgsi & (Hr & Hc & Hi) & Hrecv & Hout).
  rewrite Hres in Hgsi.
  destruct (@next_client_event_no_session w0 cls)
    as (w1 & Hnce & _ & Hrecv1 & Hout1); try congruence.
  exists w1. split; [| split; congruence].
  exists 2. intros [|[|k]] Hk; [lia | lia |].
  unfold hold. rewrite chose_impl_eq, Hgsi.
  apply cls_eqb_neq in Hcls. rewrite Hcls.
  unfold run_as_function. cbn [run_as_function_from].
  simpl gen_send. unfold try_except, bind.
  rewrite Hnce by lia. reflexivity.
Qed.

(** The loop of [hold], from a point where [n] events and then a failure
    that is no session condition are still to come. *)
Lemma hold_loop_raises (e : exn) (cls : SessionCls) (sid : nat) (n : nat) :
  is_SessionException e = false ->
  cls <> CoroutineBasedSession ->
  forall (w : World) (st : frame1) (res : pyobj),
    resolved w = Some cls ->
    current_session_of w cls = Some sid ->
    (forall i, i < n -> exists ev, inbound w (received w + i) = Event ev) ->
    inbound w (received w + n) = Fail e ->
    exists w',
      (forall fuel, n + 3 <= fuel ->
          run_as_function_from (gen_send (hold_gen tt)) st res fuel w
          = (w', Raise e))
      /\ received w' = received w + n + 1
      /\ outbound w' = outbound w.
Proof.
  intros He Hcls.
  induction n as [|n IH]; intros w st res Hres Hcur Hevs Hfail.
  - destruct (@hold_gen_send_sync w cls sid st res Hres Hcls Hcur)
      as (w1 & Hsend & _ & Hctx & Hrecv & Hout).
    rewrite Nat.add_0_r in Hfail. rewrite Hfail, He in Hsend.
    exists w1. split; [| split]; try lia; try assumption.
    intros [|fuel] Hfuel; [lia |]. cbn [run_as_function_from].
    rewrite Hsend by lia. reflexivity.
  - destruct (@hold_gen_send_sync w cls sid st res Hres Hcls Hcur)
      as (w1 & Hsend & _ & (Hr & Hc & Hi) & Hrecv & Hout).
    destruct (Hevs 0 (Nat.lt_0_succ n)) as [ev Hev].
    rewrite Nat.add_0_r in Hev. rewrite Hev in Hsend.
    destruct (IH w1 AtYield (PyEvent ev))
      as (w' & Hloop & Hrecv' & Hout').
    + congruence.
    + congruence.
    + intros i Hi0. rewrite Hi, Hrecv.
      destruct (Hevs (S i)) as [ev' Hev']; [lia |].
      exists ev'. rewrite <- Hev'. f_equal. lia.
    + rewrite Hi, Hrecv. rewrite <- Hfail. f_equal. lia.
    + exists w'. split; [| split]; try congruence; try lia.
      intros [|fuel] Hfuel; [lia |]. cbn [run_as_function_from].
      rewrite Hsend by lia. apply Hloop. lia.
Qed.

(** X15: [hold] catches session conditions only: dispatched synchronously in
    a session, when the events are followed by a failure that is not a
    [SessionException], [hold] raises that failure to its caller, having
    taken the events and the failure and sent nothing. *)
Theorem hold_lets_other_failures_through :
  forall (w : World) (cls : SessionCls) (sid : nat)
         (evs : list client_event) (e : exn),
    resolved w = Some cls ->
    cls <> CoroutineBasedSession ->
    current_session_of w cls = Some sid ->
    (forall i ev, nth_error evs i = Some ev ->
                  inbound w (received w + i) = Event ev) ->
    inbound w (received w + List.length evs) = Fail e ->
    is_SessionException e = false ->
    exists w',
      raises hold w w' e
      /\ received w' = received w + List.length evs + 1
      /\ outbound w' = outbound w.
Proof.
  intros w cls sid evs e Hres Hcls Hcur Hevs Hfail He.
  destruct (get_session_implement_resolved w)
    as (w0 & Hgsi & (Hr & Hc & Hi) & Hrecv & Hout).
  rewrite Hres in Hgsi.
  destruct (@hold_loop_raises e cls sid (List.length evs) He Hcls
              w0 AtStart PyNone)
    as (w' & Hloop & Hrecv' & Hout'); try congruence.
  - intros i Hlt. rewrite Hi, Hrecv.
    destruct (nth_error evs i) as [ev |] eqn:Hnth.
    + exists ev. now apply Hevs.
    + apply nth_error_None in Hnth. lia.
  - exists w'. split; [| split]; try congruence.
    exists (List.length evs + 3). intros k Hk.
    unfold hold. rewrite chose_impl_eq, Hgsi.
    apply cls_eqb_neq in Hcls. rewrite Hcls.
    now apply Hloop.
Qed.

(** ** What the interactive functions leave alone *)

Section Frames.

Variable P : World -> World -> Prop.
Hypothesis P_refl : forall w, P w w.
Hypothesis P_trans : forall w1 w2 w3, P w1 w2 -> P w2 w3 -> P w1 w3.
Hypothesis P_probed : forall l w, P w (set_probed l w).
Hypothesis P_received : forall n w, P w (set_received n w).
Hypothesis P_bootstrap :
  forall w, _active_session_cls w = [] -> P w (script_mode_bootstrapped w).

Lemma keeps_ret {A : Type} (a : A) : keeps P (ret a).
Proof. intros fuel w. apply P_refl. Qed.

Lemma keeps_raise {A : Type} (e : exn) : keeps P (@raise A e).
Proof. intros fuel w. apply P_refl. Qed.

Lemma keeps_bind {A B : Type} (m : M A) (f : A -> M B) :
  keeps P m -> (forall a, keeps P (f a)) -> keeps P (bind m f).
Proof.
  intros Hm Hf fuel w. unfold bind.
  specialize (Hm fuel w).
  destruct (m fuel w) as [w1 [a | e |]]; simpl in *; try assumption.
  eapply P_trans; [exact Hm | apply Hf].
Qed.

Lemma keeps_try_except {A : Type} (m : M A) (handler : exn -> M A) :
  keeps P m -> (forall e, keeps P (handler e)) -> keeps P (try_except m handler).
Proof.
  intros Hm Hh fuel w. unfold try_except.
  specialize (Hm fuel w).
  destruct (m fuel w) as [w1 [a | e |]]; simpl in *; try assumption.
  eapply P_trans; [exact Hm | apply Hh].
Qed.

Lemma keeps_get_session_implement : keeps P get_session_implement.
Proof.
  intros fuel w. rewrite get_session_implement_eq.
  destruct (_active_session_cls w) as [|c [|c' l]] eqn:E.
  - simpl. now apply P_bootstrap.
  - apply P_refl.
  - destruct (get_session_implement_probe_frame (c :: c' :: l) fuel w)
      as [p Hp].
    rewrite Hp. apply P_probed.
Qed.

Lemma keeps_cls_get_current_session (cls : SessionCls) :
  keeps P (cls_get_current_session cls).
Proof.
  intros fuel w. unfold cls_get_current_session.
  destruct (current_session_of w cls); apply P_probed.
Qed.

Lemma keeps_get_current_session : keeps P get_current_session.
Proof.
  apply keeps_bind;
    [exact keeps_get_session_implement | exact keeps_cls_get_current_session].
Qed.

Lemma keeps_take_client_event : keeps P take_client_event.
Proof.
  intros fuel w. rewrite take_client_event_eq. apply P_received.
Qed.

Lemma keeps_session_next_client_event (s : Session) :
  keeps P (session_next_client_event s).
Proof.
  unfold session_next_client_event.
  destruct (cls_eqb (session_cls s) CoroutineBasedSession);
    [apply keeps_ret | exact keeps_take_client_event].
Qed.

Lemma gives_kept_session_next_client_event (s : Session) :
  gives_kept P (session_next_client_event s).
Proof.
  intros fuel w v. unfold session_next_client_event.
  destruct (cls_eqb (session_cls s) CoroutineBasedSession).
  - simpl. intros Hv. injection Hv as <-. exact keeps_take_client_event.
  - rewrite take_client_event_eq. simpl.
    destruct (inbound w (received w)); simpl; [| discriminate].
    intros Hv. injection Hv as <-. exact I.
Qed.

(** The two drivers keep what the resumptions of the generator keep. *)
Lemma keeps_run_as_function_from {St : Type}
    (send : St -> pyobj -> M (gen_step St)) :
  (forall st res, keeps P (send st res)) ->
  forall st res, keeps P (run_as_function_from send st res).
Proof.
  intros Hsend st res fuel. revert st res.
  induction fuel as [|fuel IH]; intros st res w; simpl.
  - apply P_refl.
  - specialize (Hsend st res fuel w).
    destruct (send st res fuel w) as [w1 [[y st' | r] | e |]];
      simpl in *; try assumption.
    eapply P_trans; [exact Hsend | apply IH].
Qed.

Lemma gives_kept_run_as_function_from {St : Type}
    (send : St -> pyobj -> M (gen_step St)) :
  (forall st res fuel w y st',
      snd (send st res fuel w) = Ok (Yield y st') -> kept_obj P y) ->
  (forall st res fuel w r,
      kept_obj P res ->
      snd (send st res fuel w) = Ok (Return r) -> kept_obj P r) ->
  forall fuel st res w v,
    kept_obj P res ->
    snd (run_as_function_from send st res fuel w) = Ok v ->
    kept_obj P v.
Proof.
  intros Hyield Hreturn fuel.
  induction fuel as [|fuel IH]; intros st res w v Hres; simpl.
  - discriminate.
  - pose proof (Hyield st res fuel w) as Hy.
    pose proof (Hreturn st res fuel w) as Hr.
    destruct (send st res fuel w) as [w1 [[y st' | r] | e |]]; simpl in *;
      try discriminate.
    + apply IH. now apply (Hy y st').
    + intros Hv. injection Hv as <-. now apply Hr.
Qed.

Lemma keeps_await (c : pyobj) : kept_obj P c -> keeps P (await c).
Proof.
  destruct c; simpl; intros Hc; try apply keeps_raise. exact Hc.
Qed.

Lemma keeps_to_coroutine_from {St : Type}
    (send : St -> pyobj -> M (gen_step St)) :
  (forall st res, keeps P (send st res)) ->
  (forall st res fuel w y st',
      snd (send st res fuel w) = Ok (Yield y st') -> kept_obj P y) ->
  forall st res, keeps P (to_coroutine_from send st res).
Proof.
  intros Hsend Hyield st res fuel. revert st res.
  induction fuel as [|fuel IH]; intros st res w; simpl.
  - apply P_refl.
  - pose proof (Hsend st res fuel w) as Hs.
    pose proof (Hyield st res fuel w) as Hy.
    destruct (send st res fuel w) as [w1 [[y st' | r] | e |]];
      simpl in *; try assumption.
    pose proof (@keeps_await y (Hy y st' eq_refl) fuel w1) as Ha.
    destruct (await y fuel w1) as [w2 [res' | e |]]; simpl in *.
    + eapply P_trans; [exact Hs |]. eapply P_trans; [exact Ha | apply IH].
    + eapply P_trans; eassumption.
    + eapply P_trans; eassumption.
Qed.

(** The dispatch adapter keeps what the generator keeps, and what it
    returns is kept when awaited. *)
Lemma keeps_chose_impl {A : Type} (gen_func : A -> generator) (args : A) :
  kept_gen P (gen_func args) ->
  keeps P (chose_impl gen_func args)
  /\ gives_kept P (chose_impl gen_func args).
Proof.
  intros (Hsend & Hyield & Hreturn). split.
  - intros fuel w. rewrite chose_impl_eq.
    pose proof (keeps_get_session_implement fuel w) as Hgsi.
    destruct (get_session_implement fuel w) as [w1 [cls | e |]];
      simpl in *; try assumption.
    destruct (cls_eqb cls CoroutineBasedSession); [assumption |].
    eapply P_trans; [exact Hgsi |].
    now apply keeps_run_as_function_from.
  - intros fuel w v. rewrite chose_impl_eq.
    destruct (get_session_implement fuel w) as [w1 [cls | e |]];
      simpl; try discriminate.
    destruct (cls_eqb cls CoroutineBasedSession).
    + simpl. intros Hv. injection Hv as <-.
      now apply keeps_to_coroutine_from.
    + apply (gives_kept_run_as_function_from _ Hyield Hreturn). exact I.
Qed.

Lemma keeps_completed (m : M pyobj) :
  keeps P m -> gives_kept P m -> keeps P (completed m).
Proof.
  intros Hm Hv fuel w. unfold completed, bind.
  specialize (Hm fuel w). specialize (Hv fuel w).
  destruct (m fuel w) as [w1 [v | e |]]; simpl in *; try assumption.
  specialize (Hv v eq_refl).
  destruct v as [d | ev | c]; simpl; try assumption.
  eapply P_trans; [exact Hm | apply Hv].
Qed.

Lemma kept_next_client_event_gen : kept_gen P (next_client_event_gen tt).
Proof.
  split; [| split].
  - intros [|] res; simpl.
    + apply keeps_bind; [exact keeps_get_current_session |].
      intros s. apply keeps_bind;
        [apply keeps_session_next_client_event | intros c; apply keeps_ret].
    + apply keeps_ret.
  - intros [|] res fuel w y st'; simpl; [| discriminate].
    unfold bind.
    destruct (get_current_session fuel w) as [w1 [s | e |]]; simpl;
      try discriminate.
    pose proof (@gives_kept_session_next_client_event s fuel w1) as Hk.
    destruct (session_next_client_event s fuel w1) as [w2 [c | e |]];
      simpl in *; try discriminate.
    intros Hy. injection Hy as <- _. now apply Hk.
  - intros [|] res fuel w r Hres; simpl.
    + unfold bind.
      destruct (get_current_session fuel w) as [w1 [s | e |]]; simpl;
        try discriminate.
      destruct (session_next_client_event s fuel w1) as [w2 [c | e |]];
        simpl; discriminate.
    + intros Hr. injection Hr as <-. exact Hres.
Qed.

Lemma keeps_next_client_event :
  keeps P next_client_event /\ gives_kept P next_client_event.
Proof. apply keeps_chose_impl. exact kept_next_client_event_gen. Qed.

Lemma kept_hold_gen : kept_gen P (hold_gen tt).
Proof.
  destruct keeps_next_client_event as [Hk Hg].
  split; [| split].
  - intros st res. simpl. apply keeps_try_except.
    + apply keeps_bind; [exact Hk | intros c; apply keeps_ret].
    + intros e. destruct (is_SessionException e);
        [apply keeps_ret | apply keeps_raise].
  - intros st res fuel w y st'. simpl. unfold try_except, bind.
    pose proof (Hg fuel w) as Hv.
    destruct (next_client_event fuel w) as [w1 [c | e |]]; simpl in *.
    + intros Hy. injection Hy as <- _. now apply Hv.
    + destruct (is_SessionException e); simpl; discriminate.
    + discriminate.
  - intros st res fuel w r _. simpl. unfold try_except, bind.
    destruct (next_client_event fuel w) as [w1 [c | e |]]; simpl.
    + discriminate.
    + destruct (is_SessionException e); simpl; [| discriminate].
      intros Hr. injection Hr as <-. exact I.
    + discriminate.
Qed.

Lemma keeps_hold : keeps P hold /\ keeps P (completed hold).
Proof.
  destruct (@keeps_chose_impl _ hold_gen tt kept_hold_gen) as [Hk Hg].
  split; [exact Hk | now apply keeps_completed].
Qed.

Section EvalJsFrame.

Variable repr : string -> string.
Hypothesis P_outbound : forall l w, P w (set_outbound l w).
Hypothesis P_sent_at : forall l w, P w (set_sent_at l w).

Lemma keeps_send_msg (cmd : string) (spec_ : data) :
  keeps P (send_msg cmd spec_).
Proof.
  apply keeps_bind; [exact keeps_get_current_session |].
  intros s fuel w. simpl.
  eapply P_trans; [apply P_outbound | apply P_sent_at].
Qed.

Lemma keeps_call_with_keywords {A : Type} (fname param : string)
    (f : list (string * data) -> M A) (kwargs : list (string * data)) :
  keeps P (f kwargs) -> keeps P (call_with_keywords fname param f kwargs).
Proof.
  intros Hf. unfold call_with_keywords.
  destruct (str_in param (map fst kwargs)); [apply keeps_raise | exact Hf].
Qed.

Lemma eval_js_gen_at_start (expression_ : string)
    (args : list (string * data)) (res : pyobj) :
  gen_send (eval_js_gen repr (expression_, args)) AtStart res
  = (call_with_keywords "run_js" "code_"
       (run_js (eval_js_script_head ++ repr expression_
                ++ eval_js_script_tail)) args ;;;
     c <- next_client_event ;;
     ret (Yield c AtYield)).
Proof. reflexivity. Qed.

Lemma kept_eval_js_gen (expression_ : string) (args : list (string * data)) :
  kept_gen P (eval_js_gen repr (expression_, args)).
Proof.
  destruct keeps_next_client_event as [Hk Hg].
  split; [| split].
  - intros [|] res.
    + rewrite eval_js_gen_at_start.
      apply keeps_bind;
        [apply keeps_call_with_keywords; apply keeps_send_msg |].
      intros _. apply keeps_bind; [exact Hk | intros c; apply keeps_ret].
    + intros fuel w. destruct res as [d | ev | c]; try apply P_refl.
      rewrite eval_js_gen_at_yield. apply P_refl.
  - intros [|] res fuel w y st'.
    + rewrite eval_js_gen_at_start. unfold bind.
      destruct (call_with_keywords _ _ _ args fuel w) as [w1 [u | e |]];
        simpl; try discriminate.
      pose proof (Hg fuel w1) as Hv.
      destruct (next_client_event fuel w1) as [w2 [c | e |]];
        simpl in *; try discriminate.
      intros Hy. injection Hy as <- _. now apply Hv.
    + destruct res as [d | ev | c]; try discriminate.
      rewrite eval_js_gen_at_yield.
      destruct (ev_event ev =? "js_yield"); discriminate.
  - intros [|] res fuel w r _.
    + rewrite eval_js_gen_at_start. unfold bind.
      destruct (call_with_keywords _ _ _ args fuel w) as [w1 [u | e |]];
        simpl; try discriminate.
      destruct (next_client_event fuel w1) as [w2 [c | e |]]; simpl;
        discriminate.
    + destruct res as [d | ev | c]; try discriminate.
      rewrite eval_js_gen_at_yield.
      destruct (ev_event ev =? "js_yield"); simpl; [| discriminate].
      intros Hr. injection Hr as <-. exact I.
Qed.

Lemma keeps_eval_js (expression_ : string) (args : list (string * data)) :
  keeps P (eval_js repr expression_ args)
  /\ keeps P (completed (eval_js repr expression_ args)).
Proof.
  destruct (@keeps_chose_impl _ (eval_js_gen repr) (expression_, args)
              (kept_eval_js_gen expression_ args)) as [Hk Hg].
  split; [exact Hk | now apply keeps_completed].
Qed.

End EvalJsFrame.

End Frames.

Lemma completed_chose_impl_unregistered {A : Type}
    (gen_func : A -> generator) (args : A) (fuel : nat) (w : World) :
  _active_session_cls w = [] ->
  completed (chose_impl gen_func args) fuel w
  = completed (run_as_function (gen_func args)) fuel
      (script_mode_bootstrapped w).
Proof.
  intros Hempty. unfold completed, bind.
  rewrite chose_impl_eq, get_session_implement_eq, Hempty. reflexivity.
Qed.

Lemma registry_kept_refl (w : World) : registry_kept w w.
Proof. intros _. now split. Qed.

Lemma registry_kept_trans (w1 w2 w3 : World) :
  registry_kept w1 w2 -> registry_kept w2 w3 -> registry_kept w1 w3.
Proof.
  intros H12 H23 Hne. destruct (H12 Hne) as [Hr Hs].
  destruct H23 as [Hr' Hs']; [congruence |]. split; congruence.
Qed.

Lemma registry_kept_bootstrap (w : World) :
  _active_session_cls w = [] -> registry_kept w (script_mode_bootstrapped w).
Proof. intros Hempty Hne. contradiction. Qed.

Lemma registry_kept_completed_chose_impl {A : Type}
    (gen_func : A -> generator) (args : A) :
  kept_gen registry_kept (gen_func args) ->
  keeps registry_kept (completed (chose_impl gen_func args)) ->
  forall (fuel : nat) (w : World),
    bootstrap_only w (fst (completed (chose_impl gen_func args) fuel w)).
Proof.
  intros (Hsend & Hyield & Hreturn) Hkeeps fuel w. unfold bootstrap_only.
  destruct (_active_session_cls w) as [|c l] eqn:E.
  - rewrite completed_chose_impl_unregistered by exact E.
    assert (Hk : keeps registry_kept
                   (completed (run_as_function (gen_func args)))).
    { apply keeps_completed.
      - exact registry_kept_trans.
      - apply keeps_run_as_function_from;
          [exact registry_kept_refl | exact registry_kept_trans
           | exact Hsend].
      - intros fuel' w0 v. unfold run_as_function.
        eapply gives_kept_run_as_function_from;
          [exact Hyield | exact Hreturn | exact I]. }
    destruct (Hk fuel (script_mode_bootstrapped w)) as [Hr Hs].
    + simpl. rewrite E. discriminate.
    + rewrite Hr, Hs. simpl. now rewrite E.
  - destruct (Hkeeps fuel w) as [Hr Hs]; [rewrite E; discriminate |].
    rewrite Hr, Hs, E. now split.
Qed.

(** X17: the interactive functions touch the registry by the lazy bootstrap
    alone: [next_client_event], [hold] and [eval_js], called and where the
    result is an awaitable awaited, whatever they come to and however long
    they run, leave a non-empty registry and the server count as they were,
    and from the empty registry leave script mode registered and the
    script-mode server started exactly once. *)
Theorem interactive_calls_bootstrap_once :
  forall (repr : string -> string) (expression_ : string)
         (args : list (string * data)) (fuel : nat) (w : World),
    bootstrap_only w (fst (completed next_client_event fuel w))
    /\ bootstrap_only w (fst (completed hold fuel w))
    /\ bootstrap_only w
         (fst (completed (eval_js repr expression_ args) fuel w)).
Proof.
  intros repr expression_ args fuel w.
  assert (Hp : forall l w0, registry_kept w0 (set_probed l w0))
    by (intros l w0 _; now split).
  assert (Hr : forall n w0, registry_kept w0 (set_received n w0))
    by (intros n w0 _; now split).
  assert (Ho : forall l w0, registry_kept w0 (set_outbound l w0))
    by (intros l w0 _; now split).
  assert (Hs : forall l w0, registry_kept w0 (set_sent_at l w0))
    by (intros l w0 _; now split).
  pose proof registry_kept_refl as Hrefl.
  pose proof registry_kept_trans as Htrans.
  pose proof registry_kept_bootstrap as Hboot.
  split; [| split].
  - apply (@registry_kept_completed_chose_impl _ next_client_event_gen tt).
    + apply kept_next_client_event_gen; assumption.
    + destruct (@keeps_next_client_event registry_kept) as [Hk Hg];
        try assumption.
      apply keeps_completed; assumption.
  - apply (@registry_kept_completed_chose_impl _ hold_gen tt).
    + apply kept_hold_gen; assumption.
    + apply keeps_hold; assumption.
  - apply (@registry_kept_completed_chose_impl _ (eval_js_gen repr)
             (expression_, args)).
    + apply kept_eval_js_gen; assumption.
    + apply keeps_eval_js; assumption.
Qed.

(** X18: [next_client_event] and [hold] never send a message: called, and
    where the result is an awaitable awaited, whatever they come to and with
    whatever inbound traffic, the outbound messages are those that were
    there before. *)
Theorem waiting_never_sends :
  forall (fuel : nat) (w : World),
    outbound (fst (next_client_event fuel w)) = outbound w
    /\ outbound (fst (completed next_client_event fuel w)) = outbound w
    /\ outbound (fst (hold fuel w)) = outbound w
    /\ outbound (fst (completed hold fuel w)) = outbound w.
Proof.
  intros fuel w.
  assert (Hrefl : forall w0, nothing_sent w0 w0) by reflexivity.
  assert (Htrans : forall w1 w2 w3,
             nothing_sent w1 w2 -> nothing_sent w2 w3 -> nothing_sent w1 w3)
    by (unfold nothing_sent; congruence).
  assert (Hp : forall l w0, nothing_sent w0 (set_probed l w0))
    by reflexivity.
  assert (Hr : forall n w0, nothing_sent w0 (set_received n w0))
    by reflexivity.
  assert (Hb : forall w0, _active_session_cls w0 = [] ->
                          nothing_sent w0 (script_mode_bootstrapped w0))
    by reflexivity.
  destruct (@keeps_next_client_event nothing_sent) as [Hk Hg];
    try assumption.
  destruct (@keeps_hold nothing_sent) as [Hh Hch]; try assumption.
  split; [apply Hk | split; [| split; [apply Hh | apply Hch]]].
  apply keeps_completed; assumption.
Qed.

(** ** The further properties at concrete inputs *)

Lemma script_mode_server_started_at_most_once_witness :
  _active_session_cls fresh_world = []
  /\ script_mode_servers
       (run_calls [CallResolve; CallRegister PlainDef; CallResolve]
          fresh_world) = 1.
Proof.
  split; [reflexivity |].
  apply (proj1 (@script_mode_server_started_at_most_once task_def _
                  [CallResolve; CallRegister PlainDef; CallResolve]
                  fresh_world eq_refl)).
  simpl. now left.
Defined.

Lemma script_mode_is_final_witness :
  _active_session_cls script_world = [ScriptModeSession]
  /\ snd (register_session_implement_for_target AsyncDef 0
            (run_calls [CallResolve; CallRegister PlainDef] script_world))
     = Raise (RuntimeError "Already in script mode, can't start server").
Proof.
  split; [reflexivity |].
  apply (@script_mode_is_final task_def _
           [CallResolve; CallRegister PlainDef] script_world AsyncDef 0).
  reflexivity.
Defined.

Lemma registry_at_most_two_witness :
  _active_session_cls fresh_world = []
  /\ List.length
       (_active_session_cls
          (run_calls [CallRegister PlainDef; CallRegister AsyncDef;
                      CallRegister GeneratorDef] fresh_world)) <= 2.
Proof.
  split; [reflexivity |].
  apply (@registry_at_most_two task_def _). reflexivity.
Defined.

Lemma get_current_session_found_iff_witness :
  1 < List.length (_active_session_cls mixed_world)
  /\ exists s, snd (get_current_session 0 mixed_world) = Ok s
               /\ session_cls s = CoroutineBasedSession.
Proof.
  split; [simpl; lia |].
  apply (proj1 (proj2 (proj2 (get_current_session_found_iff 0 mixed_world)))).
  - simpl. lia.
  - reflexivity.
Defined.

Lemma stray_caller_is_refused_witness :
  1 < List.length (_active_session_cls stray_world)
  /\ hold 5 stray_world
     = (set_probed [ThreadBasedSession; CoroutineBasedSession] stray_world,
        Raise SessionNotFoundException).
Proof.
  assert (Hlen : 1 < List.length (_active_session_cls stray_world))
    by (simpl; lia).
  split; [exact Hlen |].
  apply (@stray_caller_is_refused 5 stray_world Hlen).
  intros c _. reflexivity.
Defined.

Lemma run_async_only_in_coroutine_session_witness :
  get_session_implement 0 script_world = (script_world, Ok ScriptModeSession)
  /\ ScriptModeSession <> CoroutineBasedSession
  /\ func_call (run_async method_noop) PyNone 0 script_world
     = (script_world,
        Raise (RuntimeError
          ("Only can invoke `run_async` in CoroutineBasedSession context."
           ++ " You are now in ScriptModeSession context"))).
Proof.
  assert (Hne : ScriptModeSession <> CoroutineBasedSession) by discriminate.
  split; [reflexivity | split; [exact Hne |]].
  apply (proj1 (@run_async_only_in_coroutine_session method_noop PyNone 0
                  script_world script_world ScriptModeSession eq_refl)).
  exact Hne.
Defined.

Lemma register_thread_refused_only_in_coroutine_session_witness :
  get_session_implement 0 coroutine_world
  = (coroutine_world, Ok CoroutineBasedSession)
  /\ func_call (register_thread method_noop) PyNone 0 coroutine_world
     = (coroutine_world,
        Raise (RuntimeError
          ("Only can invoke `register_thread` in ThreadBasedSession context."
           ++ " You are now in CoroutineBasedSession context"))).
Proof.
  split; [reflexivity |].
  apply (proj1 (@register_thread_refused_only_in_coroutine_session
                  method_noop PyNone 0 coroutine_world coroutine_world
                  CoroutineBasedSession eq_refl)).
  reflexivity.
Defined.

Lemma run_asyncio_coroutine_checks_at_call_witness :
  get_session_implement 0 thread_world = (thread_world, Ok ThreadBasedSession)
  /\ ThreadBasedSession <> CoroutineBasedSession
  /\ func_call (run_asyncio_coroutine method_noop) PyNone 0 thread_world
     = (thread_world,
        Raise (RuntimeError
          ("Only can invoke `run_asyncio_coroutine` in "
           ++ "CoroutineBasedSession context."
           ++ " You are now in ThreadBasedSession context"))).
Proof.
  assert (Hne : ThreadBasedSession <> CoroutineBasedSession) by discriminate.
  split; [reflexivity | split; [exact Hne |]].
  apply (proj1 (@run_asyncio_coroutine_checks_at_call method_noop PyNone 0
                  thread_world thread_world ThreadBasedSession eq_refl)).
  exact Hne.
Defined.

Lemma defer_call_returns_func_witness :
  resolved thread_world = Some ThreadBasedSession
  /\ snd (defer_call (fun (_ : Session) (_ : nat) => ret tt) 7 0 thread_world)
     = Ok 7.
Proof.
  split; [reflexivity |].
  apply (proj1 (@defer_call_returns_func nat
                  (fun (_ : Session) (_ : nat) => ret tt) 7 thread_world)
           ThreadBasedSession 1 eq_refl eq_refl).
  intros s fuel w0. exists w0. reflexivity.
Defined.

Lemma next_client_event_takes_one_witness :
  resolved thread_world = Some ThreadBasedSession
  /\ inbound thread_world (received thread_world) = Event callback_event
  /\ exists w',
       received w' = 1
       /\ returns (completed next_client_event) thread_world w'
            (PyEvent callback_event).
Proof.
  split; [reflexivity | split; [reflexivity |]].
  destruct (@next_client_event_takes_one thread_world ThreadBasedSession 1
              eq_refl eq_refl) as (w' & Hrecv & _ & Hev & _).
  exists w'. split; [exact Hrecv | apply Hev; reflexivity].
Defined.

Lemma hold_outside_session_returns_witness :
  resolved unregistered_thread_world = Some ThreadBasedSession
  /\ current_session_of unregistered_thread_world ThreadBasedSession = None
  /\ exists w',
       returns hold unregistered_thread_world w' PyNone
       /\ received w' = 0
       /\ outbound w' = [].
Proof.
  split; [reflexivity | split; [reflexivity |]].
  apply (@hold_outside_session_returns unregistered_thread_world
           ThreadBasedSession eq_refl ltac:(discriminate) eq_refl).
Defined.

Lemma hold_lets_other_failures_through_witness :
  resolved crash_world = Some ThreadBasedSession
  /\ is_SessionException (OtherError "ConnectionError") = false
  /\ exists w',
       raises hold crash_world w' (OtherError "ConnectionError")
       /\ received w' = 2
       /\ outbound w' = [].
Proof.
  split; [reflexivity | split; [reflexivity |]].
  apply (@hold_lets_other_failures_through crash_world ThreadBasedSession 1
           [callback_event] (OtherError "ConnectionError")
           eq_refl ltac:(discriminate) eq_refl).
  - intros [|[|i]] ev Hnth; simpl in Hnth;
      try discriminate; injection Hnth as <-; reflexivity.
  - reflexivity.
  - reflexivity.
Defined.

(** ** Sending *)

Lemma sends_kept_refl (w : World) : sends_kept w w.
Proof. now split. Qed.

Lemma sends_kept_trans (w1 w2 w3 : World) :
  sends_kept w1 w2 -> sends_kept w2 w3 -> sends_kept w1 w3.
Proof. intros [H1 H2] [H3 H4]. split; congruence. Qed.

Lemma sends_kept_get_session_implement :
  keeps sends_kept get_session_implement.
Proof.
  apply keeps_get_session_implement.
  - exact sends_kept_refl.
  - intros l w. now split.
  - intros w _. now split.
Qed.

Lemma sends_kept_get_current_session : keeps sends_kept get_current_session.
Proof.
  apply keeps_get_current_session.
  - exact sends_kept_refl.
  - exact sends_kept_trans.
  - intros l w. now split.
  - intros w _. now split.
Qed.

Lemma sends_kept_next_client_event :
  keeps sends_kept next_client_event
  /\ gives_kept sends_kept next_client_event.
Proof.
  apply keeps_next_client_event.
  - exact sends_kept_refl.
  - exact sends_kept_trans.
  - intros l w. now split.
  - intros n w. now split.
  - intros w _. now split.
Qed.

Lemma sends_kept_await_next_client_event :
  keeps sends_kept (await (to_coroutine (next_client_event_gen tt))).
Proof.
  simpl. apply keeps_to_coroutine_from.
  - exact sends_kept_refl.
  - exact sends_kept_trans.
  - apply kept_next_client_event_gen.
    + exact sends_kept_refl.
    + exact sends_kept_trans.
    + intros l w. now split.
    + intros n w. now split.
    + intros w _. now split.
  - apply kept_next_client_event_gen.
    + exact sends_kept_refl.
    + exact sends_kept_trans.
    + intros l w. now split.
    + intros n w. now split.
    + intros w _. now split.
Qed.

(** In a session [send_msg] hands the message to the session: it is the
    last of the outbound messages, stamped with the deliveries taken so
    far. *)
Lemma send_msg_in_session (cmd : string) (spec_ : data) (w : World)
    (cls : SessionCls) (sid : nat) :
  resolved w = Some cls ->
  current_session_of w cls = Some sid ->
  exists w1,
    (forall fuel, send_msg cmd spec_ fuel w = (w1, Ok tt))
    /\ same_context w w1
    /\ received w1 = received w
    /\ outbound w1 = outbound w ++ [{| command := cmd; spec := spec_ |}]
    /\ sent_at w1 = sent_at w ++ [received w].
Proof.
  intros Hres Hcur.
  destruct (@get_current_session_resolved w cls sid Hres Hcur)
    as (w0 & Hgcs & (Hr & Hc & Hi) & Hrecv & Hout).
  destruct (sends_kept_get_current_session 0 w) as [_ Hstamp].
  rewrite Hgcs in Hstamp. simpl in Hstamp.
  exists (set_sent_at (sent_at w0 ++ [received w0])
            (set_outbound (outbound w0 ++ [{| command := cmd;
                                              spec := spec_ |}]) w0)).
  split; [| repeat split].
  - intros fuel. unfold send_msg, bind. rewrite Hgcs. reflexivity.
  - exact Hr.
  - exact Hc.
  - exact Hi.
  - exact Hrecv.
  - simpl. now rewrite Hout.
  - simpl. now rewrite Hstamp, Hrecv.
Qed.

(** Where no session is found [send_msg] raises
    [SessionNotFoundException] and nothing is sent. *)
Lemma send_msg_no_session (cmd : string) (spec_ : data) (fuel : nat)
    (w : World) :
  snd (get_current_session fuel w) = Raise SessionNotFoundException ->
  snd (send_msg cmd spec_ fuel w) = Raise SessionNotFoundException
  /\ sends_kept w (fst (send_msg cmd spec_ fuel w)).
Proof.
  intros Hraise. unfold send_msg, bind.
  pose proof (sends_kept_get_current_session fuel w) as Hk.
  destruct (get_current_session fuel w) as [w1 o]. simpl in *. subst o.
  now split.
Qed.

Lemma traffic_kept_refl (w : World) : traffic_kept w w.
Proof. now repeat split. Qed.

Lemma traffic_kept_trans (w1 w2 w3 : World) :
  traffic_kept w1 w2 -> traffic_kept w2 w3 -> traffic_kept w1 w3.
Proof. intros (H1 & H2 & H3) (H4 & H5 & H6). repeat split; congruence. Qed.

Lemma traffic_kept_get_session_implement :
  keeps traffic_kept get_session_implement.
Proof.
  apply keeps_get_session_implement.
  - exact traffic_kept_refl.
  - intros l w. now repeat split.
  - intros w _. now repeat split.
Qed.

Lemma traffic_kept_get_current_session :
  keeps traffic_kept get_current_session.
Proof.
  apply keeps_get_current_session.
  - exact traffic_kept_refl.
  - exact traffic_kept_trans.
  - intros l w. now repeat split.
  - intros w _. now repeat split.
Qed.

Lemma same_context_refl (w : World) : same_context w w.
Proof. now repeat split. Qed.

Lemma same_context_trans (w1 w2 w3 : World) :
  same_context w1 w2 -> same_context w2 w3 -> same_context w1 w3.
Proof. intros (H1 & H2 & H3) (H4 & H5 & H6). repeat split; congruence. Qed.

Lemma same_context_bootstrap (w : World) :
  _active_session_cls w = [] -> same_context w (script_mode_bootstrapped w).
Proof.
  intros Hempty. repeat split.
  unfold resolved, script_mode_bootstrapped. simpl. now rewrite Hempty.
Qed.

Lemma same_context_get_current_session :
  keeps same_context get_current_session.
Proof.
  apply keeps_get_current_session.
  - exact same_context_refl.
  - exact same_context_trans.
  - intros l w. now repeat split.
  - exact same_context_bootstrap.
Qed.

(** What [get_current_session] comes to, by the resolved implement and the
    ambient context. *)
Lemma get_current_session_outcome (fuel : nat) (w : World) :
  snd (get_current_session fuel w)
  = match resolved w with
    | Some cls =>
        match current_session_of w cls with
        | Some sid => Ok {| session_cls := cls; session_id := sid |}
        | None => Raise SessionNotFoundException
        end
    | None => Raise SessionNotFoundException
    end.
Proof.
  destruct (get_session_implement_resolved w) as (w0 & Hgsi & (_ & Hc & _) & _).
  unfold get_current_session, bind. rewrite (Hgsi fuel).
  destruct (resolved w) as [cls |]; [| reflexivity].
  unfold cls_get_current_session. rewrite Hc.
  destruct (current_session_of w cls); reflexivity.
Qed.

(** [send_msg] either hands the message over, or finds no session, raises
    [SessionNotFoundException] and sends nothing; it takes nothing from the
    inbound traffic and leaves the session context as it is. *)
Lemma send_msg_cases (cmd : string) (spec_ : data) (fuel : nat) (w : World) :
  let r := send_msg cmd spec_ fuel w in
  same_context w (fst r)
  /\ received (fst r) = received w
  /\ ((snd r = Ok tt
       /\ (exists s, snd (get_current_session fuel w) = Ok s)
       /\ outbound (fst r)
          = outbound w ++ [{| command := cmd; spec := spec_ |}]
       /\ sent_at (fst r) = sent_at w ++ [received w])
      \/ (snd r = Raise SessionNotFoundException
          /\ snd (get_current_session fuel w) = Raise SessionNotFoundException
          /\ sends_kept w (fst r))).
Proof.
  unfold send_msg, bind.
  pose proof (traffic_kept_get_current_session fuel w) as (Ho & Hs & Hr).
  pose proof (same_context_get_current_session fuel w) as Hctx.
  pose proof (get_current_session_outcome fuel w) as Hout.
  destruct (get_current_session fuel w) as [w1 [s | e |]]; simpl in *.
  - split; [exact Hctx | split; [exact Hr | left]].
    repeat split; [now exists s | now rewrite Ho | now rewrite Hs, Hr].
  - split; [exact Hctx | split; [exact Hr | right]].
    assert (He : e = SessionNotFoundException).
    { destruct (resolved w) as [cls |]; [| congruence].
      destruct (current_session_of w cls); congruence. }
    subst e. repeat split; assumption.
  - exfalso. destruct (resolved w) as [cls |]; [| discriminate].
    destruct (current_session_of w cls); discriminate.
Qed.

(** ** Environment options *)

(** C9: [set_env] checks the keys before anything else: with a key that is
    not one of the four option names it raises [AssertionError] and the
    world is as it was, in a session or not, and only then; the [set_env]
    message is the only message it ever sends, and it is sent only when
    every key is an option name; in a session it is sent if and only if
    every key is an option name. *)
Theorem set_env_checks_keys :
  forall (env_info : list (string * data)) (fuel : nat) (w : World),
    ((exists k, In k (map fst env_info)
                /\ ~ In k ["title"; "output_animation";
                           "auto_scroll_bottom"; "http_pull_interval"])
     <-> set_env env_info fuel w = (w, Raise (AssertionError "")))
    /\ (outbound (fst (set_env env_info fuel w)) = outbound w
        \/ ((forall k, In k (map fst env_info) ->
               In k ["title"; "output_animation"; "auto_scroll_bottom";
                     "http_pull_interval"])
            /\ outbound (fst (set_env env_info fuel w))
               = outbound w
                 ++ [{| command := "set_env"; spec := DDict env_info |}]))
    /\ (forall cls sid,
          resolved w = Some cls ->
          current_session_of w cls = Some sid ->
          ((forall k, In k (map fst env_info) ->
              In k ["title"; "output_animation"; "auto_scroll_bottom";
                    "http_pull_interval"])
           <-> snd (set_env env_info fuel w) = Ok tt
               /\ outbound (fst (set_env env_info fuel w))
                  = outbound w
                    ++ [{| command := "set_env"; spec := DDict env_info |}])).
Proof.
  intros env_info fuel w.
  unfold set_env.
  destruct (forallb (fun k => str_in k set_env_keys) (map fst env_info))
    eqn:Hall; cbn [negb].
  - rewrite forallb_forall in Hall.
    assert (Hvalid : forall k, In k (map fst env_info) -> In k set_env_keys).
    { intros k Hk. apply str_in_In. now apply Hall. }
    pose proof (send_msg_cases "set_env" (DDict env_info) fuel w)
      as (_ & _ & Hcases).
    split; [| split].
    + split.
      * intros [k [Hk Hbad]]. exfalso. apply Hbad. now apply Hvalid.
      * intros Heq. exfalso.
        destruct Hcases as [(Hok & _) | (Hsnf & _)];
          rewrite Heq in *; simpl in *; discriminate.
    + destruct Hcases as [(_ & _ & Hout & _) | (_ & _ & Hout & _)].
      * right. split; [exact Hvalid | exact Hout].
      * left. exact Hout.
    + intros cls sid Hres Hcur.
      destruct (@send_msg_in_session "set_env" (DDict env_info) w cls sid
                  Hres Hcur) as (w1 & Hsend & _ & _ & Hout & _).
      rewrite (Hsend fuel). simpl. split.
      * intros _. split; [reflexivity | exact Hout].
      * intros _. exact Hvalid.
  - assert (Hbad : exists k, In k (map fst env_info)
                             /\ ~ In k set_env_keys).
    { clear fuel w. induction (map fst env_info) as [|k l IH];
        cbn [forallb] in Hall; [discriminate |].
      destruct (str_in k set_env_keys) eqn:Hk; cbn [andb] in Hall.
      - destruct (IH Hall) as [k' [Hin Hnot]].
        exists k'. split; [now right | assumption].
      - exists k. split; [now left |].
        intros Hin. apply str_in_In in Hin. congruence. }
    split; [| split].
    + split; [intros _; reflexivity | intros _; exact Hbad].
    + left. reflexivity.
    + intros cls sid _ _. simpl. split.
      * intros Hgood. destruct Hbad as [k [Hk Hnot]].
        exfalso. apply Hnot. now apply Hgood.
      * intros [Hok _]. discriminate.
Qed.

(** ** Remote evaluation *)

Section EvalJsRoundTrip.

Variable repr : string -> string.

(** [eval_js] called and awaited in a session, with no keyword [code_]:
    the message is sent with the stamp of the deliveries taken before the
    call, one delivery is taken, and the outcome is read off it. *)
Lemma completed_eval_js (expression_ : string)
    (args : list (string * data)) (w : World) (cls : SessionCls)
    (sid : nat) :
  resolved w = Some cls ->
  current_session_of w cls = Some sid ->
  ~ In "code_" (map fst args) ->
  exists w',
    (forall fuel, 3 <= fuel ->
        completed (eval_js repr expression_ args) fuel w
        = (w', match inbound w (received w) with
               | Event ev =>
                   if ev_event ev =? "js_yield"
                   then Ok (PyData (ev_data ev))
                   else Raise (AssertionError
                          ("Internal Error, please report this bug on "
                           ++ "https://github.com/wang0618/PyWebIO/issues"))
               | Fail e => Raise e
               end))
    /\ outbound w'
       = outbound w
         ++ [{| command := "run_script";
                spec := DDict
                  [("code", DStr (eval_js_script_head ++ repr expression_
                                  ++ eval_js_script_tail));
                   ("args", DDict args)] |}]
    /\ sent_at w' = sent_at w ++ [received w]
    /\ received w' = S (received w).
Proof.
  intros Hres Hcur Hkw.
  set (msg := {| command := "run_script";
                 spec := DDict
                   [("code", DStr (eval_js_script_head ++ repr expression_
                                   ++ eval_js_script_tail));
                    ("args", DDict args)] |}).
  destruct (get_session_implement_resolved w)
    as (w0 & Hgsi & (Hr & Hc & Hi) & Hrecv & Hout).
  rewrite Hres in Hgsi.
  pose proof (traffic_kept_get_session_implement 0 w) as (_ & Hst & _).
  rewrite Hgsi in Hst. simpl in Hst.
  destruct (@send_msg_in_session "run_script" (spec msg) w0 cls sid)
    as (w1 & Hsend & (Hr1 & Hc1 & Hi1) & Hrecv1 & Hout1 & Hst1);
    try congruence.
  assert (Hcall : forall fuel,
            call_with_keywords "run_js" "code_"
              (run_js (eval_js_script_head ++ repr expression_
                       ++ eval_js_script_tail)) args fuel w0
            = (w1, Ok tt)).
  { intros fuel. unfold call_with_keywords.
    destruct (str_in "code_" (map fst args)) eqn:E.
    - apply str_in_In in E. contradiction.
    - apply Hsend. }
  assert (Hstart : forall fuel res,
            gen_send (eval_js_gen repr (expression_, args)) AtStart res fuel w0
            = match next_client_event fuel w1 with
              | (w', Ok c) => (w', Ok (Yield c AtYield))
              | (w', Raise e) => (w', Raise e)
              | (w', OutOfFuel) => (w', OutOfFuel)
              end).
  { intros fuel res. rewrite eval_js_gen_at_start.
    unfold bind at 1. rewrite Hcall. unfold bind.
    destruct (next_client_event fuel w1) as [w' [c | e |]]; reflexivity. }
  assert (Hres1 : resolved w1 = Some cls) by congruence.
  assert (Hcur1 : current_session_of w1 cls = Some sid) by congruence.
  assert (Hev1 : inbound w1 (received w1) = inbound w (received w))
    by congruence.
  destruct (cls_eqb cls CoroutineBasedSession) eqn:Ecls.
  - apply cls_eqb_eq in Ecls. subst cls.
    destruct (next_client_event_coroutine w1 Hres1)
      as (w1' & Hnce & (Hr2 & Hc2 & Hi2) & Hrecv2 & Hout2).
    destruct (@await_next_client_event_coroutine w1' sid)
      as (w2 & Hawait & _ & Hrecv3 & Hout3); try congruence.
    rewrite Hi2, Hrecv2, Hev1 in Hawait.
    pose proof (proj1 sends_kept_next_client_event 0 w1) as (_ & Hst2).
    rewrite Hnce in Hst2. simpl in Hst2.
    pose proof (sends_kept_await_next_client_event 2 w1') as (_ & Hst3).
    rewrite Hawait in Hst3 by lia. simpl in Hst3.
    exists w2. split; [| split; [| split]].
    + intros [|[|fuel]] Hfuel; [lia | lia |].
      rewrite (@completed_awaits _ _ _ w0
                 (to_coroutine_from
                    (gen_send (eval_js_gen repr (expression_, args)))
                    AtStart PyNone)).
      2:{ unfold eval_js. rewrite chose_impl_eq, Hgsi. reflexivity. }
      cbn [to_coroutine_from].
      rewrite Hstart, Hnce, Hawait by lia.
      destruct (inbound w (received w)) as [ev | e]; simpl delivered;
        cbv iota; [| reflexivity].
      rewrite eval_js_gen_at_yield.
      destruct (ev_event ev =? "js_yield"); reflexivity.
    + rewrite Hout3, Hout2, Hout1, Hout. reflexivity.
    + congruence.
    + congruence.
  - destruct (@next_client_event_sync w1 cls sid Hres1)
      as (w2 & Hnce & _ & _ & Hrecv2 & Hout2);
      [now apply cls_eqb_neq | exact Hcur1 |].
    rewrite Hev1 in Hnce.
    pose proof (proj1 sends_kept_next_client_event 2 w1) as (_ & Hst2).
    rewrite Hnce in Hst2 by lia. simpl in Hst2.
    assert (Heval : forall fuel, 3 <= fuel ->
              eval_js repr expression_ args fuel w
              = (w2, match inbound w (received w) with
                     | Event ev =>
                         if ev_event ev =? "js_yield"
                         then Ok (PyData (ev_data ev))
                         else Raise (AssertionError
                                ("Internal Error, please report this bug on "
                                 ++ "https://github.com/wang0618/PyWebIO/issues"))
                     | Fail e => Raise e
                     end)).
    { intros [|[|fuel]] Hfuel; [lia | lia |].
      unfold eval_js. rewrite chose_impl_eq, Hgsi, Ecls.
      unfold run_as_function. cbn [run_as_function_from].
      rewrite Hstart, Hnce by lia.
      destruct (inbound w (received w)) as [ev | e]; simpl delivered;
        cbv iota; [| reflexivity].
      rewrite eval_js_gen_at_yield.
      destruct (ev_event ev =? "js_yield"); reflexivity. }
    exists w2. split; [| split; [| split]].
    + intros fuel Hfuel. specialize (Heval fuel Hfuel).
      destruct (inbound w (received w)) as [ev | e].
      * destruct (ev_event ev =? "js_yield").
        -- now apply completed_data.
        -- now apply completed_raise.
      * now apply completed_raise.
    + rewrite Hout2, Hout1, Hout. reflexivity.
    + congruence.
    + congruence.
Qed.

End EvalJsRoundTrip.

(** C8: in a session, for every expression and keyword arguments that
    [run_js] accepts, when the next delivery is an event [eval_js] called
    and, under the coroutine-backed implement, awaited sends exactly one
    message, the [run_script] message with the wrapped expression, and
    sends it before it waits: the message carries the stamp of the
    deliveries taken before the call; it then takes exactly that one event,
    returns the payload of the event when its kind is [js_yield], whatever
    the payload, and raises [AssertionError] when the kind is anything
    else. *)
Theorem eval_js_round_trip :
  forall (repr : string -> string) (expression_ : string)
         (args : list (string * data)) (w : World) (cls : SessionCls)
         (sid : nat) (ev : client_event),
    resolved w = Some cls ->
    current_session_of w cls = Some sid ->
    ~ In "code_" (map fst args) ->
    inbound w (received w) = Event ev ->
    exists w',
      outbound w'
      = outbound w
        ++ [{| command := "run_script";
               spec := DDict
                 [("code", DStr (eval_js_script_head ++ repr expression_
                                 ++ eval_js_script_tail));
                  ("args", DDict args)] |}]
      /\ sent_at w' = sent_at w ++ [received w]
      /\ received w' = S (received w)
      /\ (ev_event ev = "js_yield" ->
          returns (completed (eval_js repr expression_ args)) w w'
            (PyData (ev_data ev)))
      /\ (ev_event ev <> "js_yield" ->
          raises (completed (eval_js repr expression_ args)) w w'
            (AssertionError
               ("Internal Error, please report this bug on "
                ++ "https://github.com/wang0618/PyWebIO/issues"))).
Proof.
  intros repr expression_ args w cls sid ev Hres Hcur Hkw Hev.
  destruct (@completed_eval_js repr expression_ args w cls sid
              Hres Hcur Hkw) as (w' & Hrun & Hout & Hst & Hrecv).
  rewrite Hev in Hrun.
  exists w'. split; [exact Hout | split; [exact Hst | split; [exact Hrecv |]]].
  split.
  - intros Hkind. exists 3. intros k Hk.
    rewrite (Hrun k Hk). apply String.eqb_eq in Hkind. now rewrite Hkind.
  - intros Hkind. exists 3. intros k Hk.
    rewrite (Hrun k Hk). apply String.eqb_neq in Hkind. now rewrite Hkind.
Qed.

Lemma eval_js_round_trip_witness :
  resolved none_reply_world = Some ThreadBasedSession
  /\ inbound none_reply_world 0 = Event js_reply_none
  /\ exists w',
       returns (completed (eval_js quoted "window.x" [])) none_reply_world
         w' (PyData DNone)
       /\ List.length (outbound w') = 1
       /\ sent_at w' = [0]
       /\ received w' = 1.
Proof.
  split; [reflexivity | split; [reflexivity |]].
  destruct (@eval_js_round_trip quoted "window.x" [] none_reply_world
              ThreadBasedSession 1 js_reply_none eq_refl eq_refl
              (fun H : In "code_" [] => H) eq_refl)
    as (w' & Hout & Hst & Hrecv & Hret & _).
  exists w'. split; [| split; [| split]].
  - apply Hret. reflexivity.
  - rewrite Hout. reflexivity.
  - rewrite Hst. reflexivity.
  - exact Hrecv.
Defined.

(** X16: in a session, for keyword arguments that [run_js] accepts, when
    the wait of [eval_js] is released with a failure instead of an event,
    [eval_js] called and, under the coroutine-backed implement, awaited
    raises that failure to its caller; the [run_script] message has been
    sent all the same, before the wait, and the one delivery taken. *)
Theorem eval_js_wait_fails :
  forall (repr : string -> string) (expression_ : string)
         (args : list (string * data)) (w : World) (cls : SessionCls)
         (sid : nat) (e : exn),
    resolved w = Some cls ->
    current_session_of w cls = Some sid ->
    ~ In "code_" (map fst args) ->
    inbound w (received w) = Fail e ->
    exists w',
      raises (completed (eval_js repr expression_ args)) w w' e
      /\ outbound w'
         = outbound w
           ++ [{| command := "run_script";
                  spec := DDict
                    [("code", DStr (eval_js_script_head ++ repr expression_
                                    ++ eval_js_script_tail));
                     ("args", DDict args)] |}]
      /\ sent_at w' = sent_at w ++ [received w]
      /\ received w' = S (received w).
Proof.
  intros repr expression_ args w cls sid e Hres Hcur Hkw Hev.
  destruct (@completed_eval_js repr expression_ args w cls sid
              Hres Hcur Hkw) as (w' & Hrun & Hout & Hst & Hrecv).
  rewrite Hev in Hrun.
  exists w'. split; [| split; [exact Hout | split; [exact Hst | exact Hrecv]]].
  exists 3. intros k Hk. now rewrite (Hrun k Hk).
Qed.

(** X19: with a keyword argument named [code_] the call
    [run_js(script, **args)] inside [eval_js] collides with the positional
    parameter of [run_js]: wherever an implement is resolved, [eval_js]
    called and, under the coroutine-backed implement, awaited raises
    [TypeError], and nothing is sent and nothing taken from the inbound
    traffic. *)
Theorem eval_js_code_keyword_refused :
  forall (repr : string -> string) (expression_ : string)
         (args : list (string * data)) (w : World) (cls : SessionCls),
    resolved w = Some cls ->
    In "code_" (map fst args) ->
    exists w',
      raises (completed (eval_js repr expression_ args)) w w'
        (TypeError "run_js() got multiple values for argument 'code_'")
      /\ outbound w' = outbound w
      /\ sent_at w' = sent_at w
      /\ received w' = received w.
Proof.
  intros repr expression_ args w cls Hres Hkw.
  destruct (get_session_implement_resolved w)
    as (w0 & Hgsi & _ & Hrecv & Hout).
  rewrite Hres in Hgsi.
  pose proof (traffic_kept_get_session_implement 0 w) as (_ & Hst & _).
  rewrite Hgsi in Hst. simpl in Hst.
  assert (Hstart : forall fuel res,
            gen_send (eval_js_gen repr (expression_, args)) AtStart res fuel w0
            = (w0, Raise (TypeError
                 "run_js() got multiple values for argument 'code_'"))).
  { intros fuel res. rewrite eval_js_gen_at_start.
    unfold bind at 1, call_with_keywords.
    apply str_in_In in Hkw. rewrite Hkw. reflexivity. }
  exists w0. split; [| split; [exact Hout | split; [exact Hst | exact Hrecv]]].
  exists 1. intros [|fuel] Hfuel; [lia |].
  destruct (cls_eqb cls CoroutineBasedSession) eqn:Ecls.
  - rewrite (@completed_awaits _ _ _ w0
               (to_coroutine_from
                  (gen_send (eval_js_gen repr (expression_, args)))
                  AtStart PyNone)).
    2:{ unfold eval_js. rewrite chose_impl_eq, Hgsi, Ecls. reflexivity. }
    cbn [to_coroutine_from]. now rewrite Hstart.
  - apply completed_raise.
    unfold eval_js. rewrite chose_impl_eq, Hgsi, Ecls.
    unfold run_as_function. cbn [run_as_function_from]. now rewrite Hstart.
Qed.

(** ** Outbound messages *)

Lemma get_current_session_same_context (fuel fuel' : nat) (w w' : World) :
  same_context w w' ->
  snd (get_current_session fuel' w') = snd (get_current_session fuel w).
Proof.
  intros (Hr & Hc & _). rewrite !get_current_session_outcome, Hr, Hc.
  reflexivity.
Qed.

(** One call of [run_js], [go_app] or [set_env]: in a session its message,
    if it has one, is put at the end of the outbound messages; where no
    session is found nothing is sent. *)
Lemma do_output_call_step (c : output_call) (fuel : nat) (w : World) :
  let r := do_output_call c fuel w in
  same_context w (fst r)
  /\ received (fst r) = received w
  /\ ((exists s, snd (get_current_session fuel w) = Ok s) ->
      outbound (fst r) = outbound w ++ message_of c
      /\ sent_at (fst r)
         = sent_at w ++ map (fun _ => received w) (message_of c))
  /\ (snd (get_current_session fuel w) = Raise SessionNotFoundException ->
      sends_kept w (fst r)).
Proof.
  assert (Hquiet : forall (A : Type) (e : exn),
            let r := @raise A e fuel w in
            same_context w (fst r)
            /\ received (fst r) = received w
            /\ ((exists s, snd (get_current_session fuel w) = Ok s) ->
                outbound (fst r) = outbound w ++ []
                /\ sent_at (fst r)
                   = sent_at w
                     ++ map (fun _ : message => received w) [])
            /\ (snd (get_current_session fuel w)
                = Raise SessionNotFoundException ->
                sends_kept w (fst r))).
  { intros A e. simpl. rewrite !app_nil_r.
    repeat split; apply same_context_refl. }
  assert (Hsend : forall cmd spec_,
            let r := send_msg cmd spec_ fuel w in
            same_context w (fst r)
            /\ received (fst r) = received w
            /\ ((exists s, snd (get_current_session fuel w) = Ok s) ->
                outbound (fst r)
                = outbound w ++ [{| command := cmd; spec := spec_ |}]
                /\ sent_at (fst r)
                   = sent_at w
                     ++ map (fun _ => received w)
                          [{| command := cmd; spec := spec_ |}])
            /\ (snd (get_current_session fuel w)
                = Raise SessionNotFoundException ->
                sends_kept w (fst r))).
  { intros cmd spec_.
    pose proof (send_msg_cases cmd spec_ fuel w) as (Hctx & Hrecv & Hcases).
    split; [exact Hctx | split; [exact Hrecv | split]].
    - intros [s Hs].
      destruct Hcases as [(_ & _ & Hout & Hst) | (_ & Hsnf & _)].
      + split; [exact Hout | exact Hst].
      + rewrite Hs in Hsnf. discriminate.
    - intros Hsnf.
      destruct Hcases as [(_ & [s Hs] & _) | (_ & _ & Hkept)].
      + rewrite Hs in Hsnf. discriminate.
      + exact Hkept. }
  destruct c as [code_ args | name new_window | env_info];
    unfold do_output_call, message_of.
  - unfold call_with_keywords.
    destruct (str_in "code_" (map fst args)); [apply Hquiet | apply Hsend].
  - apply Hsend.
  - unfold set_env.
    destruct (forallb _ (map fst env_info)); cbn [negb];
      [apply Hsend | apply Hquiet].
Qed.

(** X12: in a session [run_js], [go_app] and [set_env] only append to the
    outbound messages: after any sequence of such calls the messages sent
    are those sent before followed by one message per call, in call order,
    a [set_env] with an unknown key and a [run_js] with a keyword [code_]
    contributing none, and no delivery has been taken; where no session is
    found, none of the calls sends anything. *)
Theorem output_calls_send_in_order :
  forall (calls : list output_call) (w : World),
    (forall cls sid,
        resolved w = Some cls ->
        current_session_of w cls = Some sid ->
        outbound (do_output_calls calls w)
        = outbound w ++ flat_map message_of calls
        /\ sent_at (do_output_calls calls w)
           = sent_at w
             ++ map (fun _ => received w) (flat_map message_of calls)
        /\ received (do_output_calls calls w) = received w)
    /\ (snd (get_current_session 0 w) = Raise SessionNotFoundException ->
        outbound (do_output_calls calls w) = outbound w
        /\ sent_at (do_output_calls calls w) = sent_at w).
Proof.
  intros calls w. split.
  - intros cls sid Hres Hcur.
    assert (Hin : exists s, snd (get_current_session 0 w) = Ok s).
    { rewrite get_current_session_outcome, Hres, Hcur. eexists. reflexivity. }
    clear cls sid Hres Hcur. revert w Hin.
    induction calls as [|c calls IH]; intros w Hin; simpl.
    + rewrite !app_nil_r. now repeat split.
    + pose proof (do_output_call_step c 0 w) as (Hctx & Hrecv & Hs & _).
      destruct (Hs Hin) as [Hout Hst].
      destruct (IH (fst (do_output_call c 0 w))) as (Hout' & Hst' & Hrecv').
      { destruct Hin as [s Hs0]. exists s.
        now rewrite (get_current_session_same_context 0 0 Hctx). }
      rewrite Hout', Hst', Hrecv', Hout, Hst, Hrecv.
      rewrite map_app, <- !app_assoc. now repeat split.
  - revert w. induction calls as [|c calls IH]; intros w Hsnf; simpl.
    + now split.
    + pose proof (do_output_call_step c 0 w) as (Hctx & _ & _ & Hk).
      destruct (Hk Hsnf) as [Hout Hst].
      destruct (IH (fst (do_output_call c 0 w))) as [Hout' Hst'].
      { now rewrite (get_current_session_same_context 0 0 Hctx). }
      split; congruence.
Qed.

(** ** Holding the session under the coroutine-backed implement *)

(** The loop of the awaited [hold], from a point where [n] events and then
    a failure are still to come. *)
Lemma hold_awaited_loop (e : exn) (sid : nat) (n : nat) :
  forall (w : World) (st : frame1) (res : pyobj),
    resolved w = Some CoroutineBasedSession ->
    current_session_of w CoroutineBasedSession = Some sid ->
    (forall i, i < n -> exists ev, inbound w (received w + i) = Event ev) ->
    inbound w (received w + n) = Fail e ->
    exists w',
      (forall fuel, n + 3 <= fuel ->
          to_coroutine_from (gen_send (hold_gen tt)) st res fuel w
          = (w', Raise e))
      /\ received w' = received w + n + 1
      /\ outbound w' = outbound w.
Proof.
  induction n as [|n IH]; intros w st res Hres Hcur Hevs Hfail.
  - destruct (next_client_event_coroutine w Hres)
      as (w0 & Hnce & (Hr & Hc & Hi) & Hrecv & Hout).
    destruct (@await_next_client_event_coroutine w0 sid)
      as (w1 & Hawait & _ & Hrecv1 & Hout1); try congruence.
    rewrite Nat.add_0_r in Hfail. rewrite Hi, Hrecv, Hfail in Hawait.
    exists w1. split; [| split]; try lia; try congruence.
    intros [|fuel] Hfuel; [lia |]. cbn [to_coroutine_from].
    simpl gen_send. unfold try_except, bind. rewrite Hnce.
    unfold ret at 1. cbv iota. rewrite Hawait by lia. reflexivity.
  - destruct (next_client_event_coroutine w Hres)
      as (w0 & Hnce & (Hr & Hc & Hi) & Hrecv & Hout).
    destruct (@await_next_client_event_coroutine w0 sid)
      as (w1 & Hawait & (Hr1 & Hc1 & Hi1) & Hrecv1 & Hout1);
      try congruence.
    destruct (Hevs 0 (Nat.lt_0_succ n)) as [ev Hev].
    rewrite Nat.add_0_r in Hev. rewrite Hi, Hrecv, Hev in Hawait.
    destruct (IH w1 AtYield (PyEvent ev)) as (w' & Hloop & Hrecv' & Hout').
    + congruence.
    + congruence.
    + intros i Hlt. rewrite Hi1, Hi, Hrecv1, Hrecv.
      destruct (Hevs (S i)) as [ev' Hev']; [lia |].
      exists ev'. rewrite <- Hev'. f_equal. lia.
    + rewrite Hi1, Hi, Hrecv1, Hrecv. rewrite <- Hfail. f_equal. lia.
    + exists w'. split; [| split]; try congruence; try lia.
      intros [|fuel] Hfuel; [lia |]. cbn [to_coroutine_from].
      simpl gen_send. unfold try_except, bind. rewrite Hnce.
      unfold ret at 1. cbv iota. rewrite Hawait by lia.
      simpl delivered. cbv iota. apply Hloop. lia.
Qed.

(** X20: in a coroutine-backed session the call of [hold] returns an
    awaitable at once and takes nothing; awaiting it takes the inbound
    events and the failure that follows them, one delivery each, sends
    nothing, and raises that failure to the awaiting caller, a session
    condition like any other: the [except SessionException] of [hold]
    does not see it. *)
Theorem hold_awaited_raises :
  forall (w : World) (sid : nat) (evs : list client_event) (e : exn),
    resolved w = Some CoroutineBasedSession ->
    current_session_of w CoroutineBasedSession = Some sid ->
    (forall i ev, nth_error evs i = Some ev ->
                  inbound w (received w + i) = Event ev) ->
    inbound w (received w + List.length evs) = Fail e ->
    (exists w0,
        returns hold w w0 (to_coroutine (hold_gen tt))
        /\ received w0 = received w
        /\ outbound w0 = outbound w)
    /\ exists w',
         raises (completed hold) w w' e
         /\ received w' = received w + List.length evs + 1
         /\ outbound w' = outbound w.
Proof.
  intros w sid evs e Hres Hcur Hevs Hfail.
  destruct (get_session_implement_resolved w)
    as (w0 & Hgsi & (Hr & Hc & Hi) & Hrecv & Hout).
  rewrite Hres in Hgsi.
  assert (Hhold : forall fuel,
            hold fuel w = (w0, Ok (to_coroutine (hold_gen tt)))).
  { intros fuel. unfold hold. rewrite chose_impl_eq, Hgsi. reflexivity. }
  split.
  - exists w0. split; [| split; assumption].
    exists 0. intros k _. apply Hhold.
  - destruct (@hold_awaited_loop e sid (List.length evs) w0 AtStart PyNone)
      as (w' & Hloop & Hrecv' & Hout'); try congruence.
    + intros i Hlt. rewrite Hi, Hrecv.
      destruct (nth_error evs i) as [ev |] eqn:Hnth.
      * exists ev. now apply Hevs.
      * apply nth_error_None in Hnth. lia.
    + exists w'. split; [| split]; try congruence.
      exists (List.length evs + 3). intros k Hk.
      rewrite (@completed_awaits _ _ _ w0
                 (to_coroutine_from (gen_send (hold_gen tt)) AtStart PyNone))
        by apply Hhold.
      now apply Hloop.
Qed.

(** ** These properties at concrete inputs *)

Lemma set_env_checks_keys_witness :
  resolved thread_world = Some ThreadBasedSession
  /\ (forall k, In k (map fst [("title", DStr "Awesome PyWebIO!!");
                               ("output_animation", DBool false)]) ->
        In k ["title"; "output_animation"; "auto_scroll_bottom";
              "http_pull_interval"])
  /\ snd (set_env [("title", DStr "Awesome PyWebIO!!");
                   ("output_animation", DBool false)] 0 thread_world)
     = Ok tt
  /\ outbound (fst (set_env [("title", DStr "Awesome PyWebIO!!");
                             ("output_animation", DBool false)] 0
                      thread_world))
     = [{| command := "set_env";
           spec := DDict [("title", DStr "Awesome PyWebIO!!");
                          ("output_animation", DBool false)] |}].
Proof.
  assert (Hkeys : forall k,
            In k (map fst [("title", DStr "Awesome PyWebIO!!");
                           ("output_animation", DBool false)]) ->
            In k ["title"; "output_animation"; "auto_scroll_bottom";
                  "http_pull_interval"]).
  { simpl. intros k [<- | [<- | []]]; auto. }
  split; [reflexivity | split; [exact Hkeys |]].
  exact (proj1 (proj2 (proj2 (set_env_checks_keys
                                [("title", DStr "Awesome PyWebIO!!");
                                 ("output_animation", DBool false)]
                                0 thread_world))
                  ThreadBasedSession 1 eq_refl eq_refl) Hkeys).
Defined.

Lemma output_calls_send_in_order_witness :
  resolved thread_world = Some ThreadBasedSession
  /\ outbound
       (do_output_calls
          [CallSetEnv [("title", DStr "t")];
           CallSetEnv [("colour", DStr "red")];
           CallGoApp "admin" true] thread_world)
     = [{| command := "set_env"; spec := DDict [("title", DStr "t")] |};
        {| command := "run_script";
           spec := DDict
             [("code", DStr "javascript:WebIO.openApp(app, new_window)");
              ("args", DDict [("app", DStr "admin");
                              ("new_window", DBool true)])] |}].
Proof.
  split; [reflexivity |].
  exact (proj1 (proj1 (output_calls_send_in_order
                         [CallSetEnv [("title", DStr "t")];
                          CallSetEnv [("colour", DStr "red")];
                          CallGoApp "admin" true] thread_world)
                  ThreadBasedSession 1 eq_refl eq_refl)).
Defined.

Lemma eval_js_wait_fails_witness :
  resolved closed_world = Some ThreadBasedSession
  /\ inbound closed_world (received closed_world)
     = Fail SessionClosedException
  /\ exists w',
       raises (completed (eval_js quoted "window.x" [])) closed_world w'
         SessionClosedException
       /\ List.length (outbound w') = 1
       /\ sent_at w' = [0]
       /\ received w' = 1.
Proof.
  split; [reflexivity | split; [reflexivity |]].
  destruct (@eval_js_wait_fails quoted "window.x" [] closed_world
              ThreadBasedSession 1 SessionClosedException
              eq_refl eq_refl (fun H : In "code_" [] => H) eq_refl)
    as (w' & Hraises & Hout & Hst & Hrecv).
  exists w'. split; [exact Hraises | split; [| split; [| exact Hrecv]]].
  - rewrite Hout. reflexivity.
  - rewrite Hst. reflexivity.
Defined.

Lemma eval_js_code_keyword_refused_witness :
  resolved thread_world = Some ThreadBasedSession
  /\ In "code_" (map fst [("code_", DInt 1)])
  /\ exists w',
       raises (completed (eval_js quoted "window.x" [("code_", DInt 1)]))
         thread_world w'
         (TypeError "run_js() got multiple values for argument 'code_'")
       /\ outbound w' = []
       /\ received w' = 0.
Proof.
  assert (Hkw : In "code_" (map fst [("code_", DInt 1)]))
    by (simpl; now left).
  split; [reflexivity | split; [exact Hkw |]].
  destruct (@eval_js_code_keyword_refused quoted "window.x"
              [("code_", DInt 1)] thread_world ThreadBasedSession
              eq_refl Hkw)
    as (w' & Hraises & Hout & _ & Hrecv).
  exists w'. split; [exact Hraises | split; assumption].
Defined.

Lemma hold_awaited_raises_witness :
  resolved coroutine_world = Some CoroutineBasedSession
  /\ inbound coroutine_world 2 = Fail SessionClosedException
  /\ exists w',
       raises (completed hold) coroutine_world w' SessionClosedException
       /\ received w' = 3
       /\ outbound w' = [].
Proof.
  split; [reflexivity | split; [reflexivity |]].
  apply (proj2 (@hold_awaited_raises coroutine_world 1
                  [callback_event; js_reply] SessionClosedException
                  eq_refl eq_refl
                  ltac:(intros [|[|[|i]]] ev Hnth; simpl in Hnth;
                        try discriminate; injection Hnth as <-; reflexivity)
                  eq_refl)).
Defined.
